(** * QCCTV local camera: a shallow embedding of QCCTV_LocalCamera.cpp

    The camera object is a record of its member variables.  Every member
    function is a computation in a small monad that threads the record,
    appends to a log of the outward effects (Qt signals, calls on the camera
    device, socket writes, timers) and can stop on behaviour that C++ leaves
    undefined (the division [1000 / fps()] when the frame rate is zero). *)

From Stdlib Require Import ZArith List Bool Lia Ascii.
From Stdlib Require String.
Import String.StringSyntax.
Delimit Scope string_scope with string.
Import ListNotations.
Local Open Scope Z_scope.

(** ** Qt value types *)

(** A [char] is kept as its bit pattern, a number from 0 to 255. *)
Definition byte := Z.
Definition QByteArray := list byte.

(** A [QString] is a sequence of UTF-16 code units; [length()] counts them. *)
Definition QChar := Z.
Definition QString := list QChar.

Definition is_byte (b : Z) : Prop := 0 <= b < 256.

(** Conversion of an [int] to [char], as in [QByteArray::append (char)]
    called with an [int] or an enumerator: the low eight bits are kept. *)
Definition to_char (n : Z) : byte := n mod 256.

(** A [QImage] is either null or owns pixel data. *)
Record ImageData := { img_width : Z; img_height : Z; img_bits : list Z }.

Inductive QImage :=
| QImage_null
| QImage_data (d : ImageData).

Definition isNull (img : QImage) : bool :=
  match img with
  | QImage_null => true
  | QImage_data _ => false
  end.

Definition isEmpty (b : QByteArray) : bool :=
  match b with
  | [] => true
  | _ :: _ => false
  end.

(** ** Collaborators: camera device, sockets, server *)

Inductive QCamera_Status :=
| UnavailableStatus | UnloadedStatus | LoadingStatus | UnloadingStatus
| LoadedStatus | StandbyStatus | StartingStatus | StoppingStatus
| ActiveStatus.

Definition QCamera_Status_eqb (a b : QCamera_Status) : bool :=
  match a, b with
  | UnavailableStatus, UnavailableStatus | UnloadedStatus, UnloadedStatus
  | LoadingStatus, LoadingStatus | UnloadingStatus, UnloadingStatus
  | LoadedStatus, LoadedStatus | StandbyStatus, StandbyStatus
  | StartingStatus, StartingStatus | StoppingStatus, StoppingStatus
  | ActiveStatus, ActiveStatus => true
  | _, _ => false
  end.

(** The camera device behind [m_camera], with the readings the code asks
    for: [status()], [exposure()->isFlashReady()] and, through the capture
    object bound to it, [isReadyForCapture()]. *)
Record QCamera := {
  camera_id : nat;
  camera_status : QCamera_Status;
  isFlashReady : bool;
  isReadyForCapture : bool
}.

Inductive FlashMode := FlashOff | FlashVideoLight.

(** A connected station: the socket's identity and its peer address. *)
Record QTcpSocket := { socket_id : nat; peerAddress : QString }.

(** The listening server with the connections it has not handed out yet. *)
Record QTcpServer := { pendingConnections : list QTcpSocket }.

(** ** Outward effects *)

Inductive Signal :=
| fpsChanged | cameraNameChanged | cameraStatusChanged
| lightStatusChanged | focusStatusChanged | imageChanged.

Inductive Slot := slot_update | slot_broadcastInfo.

Inductive TimerType := CoarseTimer | PreciseTimer.

Inductive Event :=
| emit (s : Signal)
| camera_searchAndLock (camera : nat)
| camera_setFlashMode (camera : nat) (mode : FlashMode)
| camera_start (camera : nat)
| capture_capture (camera : nat)
| socket_write (socket : nat) (data : QByteArray)
| socket_close (socket : nat)
| socket_configure (socket : nat)
| udp_writeDatagram (data : QString) (port : Z)
| singleShot (msec : Z) (timer : TimerType) (slot : Slot).

Definition is_singleShot (e : Event) : bool :=
  match e with
  | singleShot _ _ _ => true
  | _ => false
  end.

Definition Signal_eqb (a b : Signal) : bool :=
  match a, b with
  | fpsChanged, fpsChanged | cameraNameChanged, cameraNameChanged
  | cameraStatusChanged, cameraStatusChanged
  | lightStatusChanged, lightStatusChanged
  | focusStatusChanged, focusStatusChanged
  | imageChanged, imageChanged => true
  | _, _ => false
  end.

(** Number of times signal [s] is emitted in a log. *)
Fixpoint emitted (s : Signal) (log : list Event) : nat :=
  match log with
  | [] => 0%nat
  | emit s' :: rest =>
      if Signal_eqb s s' then S (emitted s rest) else emitted s rest
  | _ :: rest => emitted s rest
  end.

(** ** Declarations the sources include but do not define

    QCCTV.h, QCCTV_FrameGrabber.h and Qt itself are not part of the
    translated sources.  What the camera code takes from them is gathered
    here, so that every definition below is stated for any header. *)
Class QCCTV_h : Type := {
  (** whether plain [char] is signed on the target (it is on x86, it is
      not on ARM) *)
  char_is_signed : bool;
  (** the valid frame-rate range and the default rate *)
  QCCTV_MIN_FPS : Z;
  QCCTV_MAX_FPS : Z;
  QCCTV_DEFAULT_FPS : Z;
  (** enumerators of [QCCTV_LightStatus] *)
  QCCTV_FLASHLIGHT_ON : Z;
  QCCTV_FLASHLIGHT_OFF : Z;
  (** enumerators of [QCCTV_CameraStatus] *)
  QCCTV_CAMSTATUS_DEFAULT : Z;
  QCCTV_CAMSTATUS_VIDEO_FAILURE : Z;
  QCCTV_CAMSTATUS_LIGHT_FAILURE : Z;
  (** protocol constants *)
  QCCTV_FORCE_FOCUS : Z;
  QCCTV_EOD : QByteArray;
  QCCTV_IMAGE_FORMAT : list Z;
  QCCTV_STREAM_PORT : Z;
  QCCTV_DISCOVERY_PORT : Z;
  QCCTV_DISCVRY_PKT_TIMING : Z;
  (** [QString::toUtf8], used by [QByteArray::append (const QString&)] *)
  toUtf8 : QString -> QByteArray;
  (** [QImage::save (&buffer, format, quality)]: the bytes left in the buffer *)
  QImage_save : QImage -> list Z -> Z -> QByteArray;
  (** pixels of the 320x240 "NO CAMERA IMAGE" pixmap painted at start-up *)
  default_image_bits : list Z;
  (** the frame grabber object, of which the camera only forwards settings *)
  qreal : Type;
  QCCTV_FrameGrabber : Type;
  FrameGrabber_isGrayscale : QCCTV_FrameGrabber -> bool;
  FrameGrabber_shrinkRatio : QCCTV_FrameGrabber -> qreal;
  FrameGrabber_setGrayscale : bool -> QCCTV_FrameGrabber -> QCCTV_FrameGrabber;
  FrameGrabber_setShrinkRatio : qreal -> QCCTV_FrameGrabber -> QCCTV_FrameGrabber
}.

(** Modelled from the spec: [QCCTV_GET_VALID_FPS] is declared in QCCTV.h,
    which is missing.  The spec describes it as clamping to a fixed valid
    range, storing the nearest valid boundary for an out-of-range input. *)
Definition QCCTV_GET_VALID_FPS `{QCCTV_h} (fps : Z) : Z :=
  if fps <? QCCTV_MIN_FPS then QCCTV_MIN_FPS
  else if QCCTV_MAX_FPS <? fps then QCCTV_MAX_FPS
  else fps.

(** Conversion of a [char] to [int], as in [(int) data.at (0)]. *)
Definition char_to_int `{QCCTV_h} (b : byte) : Z :=
  if char_is_signed && (128 <=? b) then b - 256 else b.

Section LocalCamera.

Context `{QCCTV_h}.

(** ** The camera object

    The members the member functions read and write.  The three numbers are
    C++ [int]s, kept as integers: the code only compares them, combines
    them bit by bit and divides 1000 by the frame rate, so no operation on
    them can overflow.  [m_camera] and [m_capture] are pointers, [None] for
    [NULL]; the capture object is known by the camera it is bound to. *)
Record QCCTV_LocalCamera := {
  m_fps : Z;
  m_cameraStatus : Z;
  m_flashlightStatus : Z;
  m_name : QString;
  m_image : QImage;
  m_dataStream : QByteArray;
  m_camera : option QCamera;
  m_capture : option nat;
  m_sockets : list QTcpSocket;
  m_server : QTcpServer;
  m_frameGrabber : QCCTV_FrameGrabber
}.

Definition with_fps (v : Z) (c : QCCTV_LocalCamera) :=
  {| m_fps := v; m_cameraStatus := m_cameraStatus c;
     m_flashlightStatus := m_flashlightStatus c; m_name := m_name c;
     m_image := m_image c; m_dataStream := m_dataStream c;
     m_camera := m_camera c; m_capture := m_capture c;
     m_sockets := m_sockets c; m_server := m_server c;
     m_frameGrabber := m_frameGrabber c |}.

Definition with_cameraStatus (v : Z) (c : QCCTV_LocalCamera) :=
  {| m_fps := m_fps c; m_cameraStatus := v;
     m_flashlightStatus := m_flashlightStatus c; m_name := m_name c;
     m_image := m_image c; m_dataStream := m_dataStream c;
     m_camera := m_camera c; m_capture := m_capture c;
     m_sockets := m_sockets c; m_server := m_server c;
     m_frameGrabber := m_frameGrabber c |}.

Definition with_flashlightStatus (v : Z) (c : QCCTV_LocalCamera) :=
  {| m_fps := m_fps c; m_cameraStatus := m_cameraStatus c;
     m_flashlightStatus := v; m_name := m_name c;
     m_image := m_image c; m_dataStream := m_dataStream c;
     m_camera := m_camera c; m_capture := m_capture c;
     m_sockets := m_sockets c; m_server := m_server c;
     m_frameGrabber := m_frameGrabber c |}.

Definition with_name (v : QString) (c : QCCTV_LocalCamera) :=
  {| m_fps := m_fps c; m_cameraStatus := m_cameraStatus c;
     m_flashlightStatus := m_flashlightStatus c; m_name := v;
     m_image := m_image c; m_dataStream := m_dataStream c;
     m_camera := m_camera c; m_capture := m_capture c;
     m_sockets := m_sockets c; m_server := m_server c;
     m_frameGrabber := m_frameGrabber c |}.

Definition with_image (v : QImage) (c : QCCTV_LocalCamera) :=
  {| m_fps := m_fps c; m_cameraStatus := m_cameraStatus c;
     m_flashlightStatus := m_flashlightStatus c; m_name := m_name c;
     m_image := v; m_dataStream := m_dataStream c;
     m_camera := m_camera c; m_capture := m_capture c;
     m_sockets := m_sockets c; m_server := m_server c;
     m_frameGrabber := m_frameGrabber c |}.

Definition with_dataStream (v : QByteArray) (c : QCCTV_LocalCamera) :=
  {| m_fps := m_fps c; m_cameraStatus := m_cameraStatus c;
     m_flashlightStatus := m_flashlightStatus c; m_name := m_name c;
     m_image := m_image c; m_dataStream := v;
     m_camera := m_camera c; m_capture := m_capture c;
     m_sockets := m_sockets c; m_server := m_server c;
     m_frameGrabber := m_frameGrabber c |}.

Definition with_camera (v : option QCamera) (k : option nat)
    (c : QCCTV_LocalCamera) :=
  {| m_fps := m_fps c; m_cameraStatus := m_cameraStatus c;
     m_flashlightStatus := m_flashlightStatus c; m_name := m_name c;
     m_image := m_image c; m_dataStream := m_dataStream c;
     m_camera := v; m_capture := k;
     m_sockets := m_sockets c; m_server := m_server c;
     m_frameGrabber := m_frameGrabber c |}.

Definition with_sockets (v : list QTcpSocket) (c : QCCTV_LocalCamera) :=
  {| m_fps := m_fps c; m_cameraStatus := m_cameraStatus c;
     m_flashlightStatus := m_flashlightStatus c; m_name := m_name c;
     m_image := m_image c; m_dataStream := m_dataStream c;
     m_camera := m_camera c; m_capture := m_capture c;
     m_sockets := v; m_server := m_server c;
     m_frameGrabber := m_frameGrabber c |}.

Definition with_server (v : QTcpServer) (c : QCCTV_LocalCamera) :=
  {| m_fps := m_fps c; m_cameraStatus := m_cameraStatus c;
     m_flashlightStatus := m_flashlightStatus c; m_name := m_name c;
     m_image := m_image c; m_dataStream := m_dataStream c;
     m_camera := m_camera c; m_capture := m_capture c;
     m_sockets := m_sockets c; m_server := v;
     m_frameGrabber := m_frameGrabber c |}.

Definition with_frameGrabber (v : QCCTV_FrameGrabber)
    (c : QCCTV_LocalCamera) :=
  {| m_fps := m_fps c; m_cameraStatus := m_cameraStatus c;
     m_flashlightStatus := m_flashlightStatus c; m_name := m_name c;
     m_image := m_image c; m_dataStream := m_dataStream c;
     m_camera := m_camera c; m_capture := m_capture c;
     m_sockets := m_sockets c; m_server := m_server c;
     m_frameGrabber := v |}.

(** ** The monad of member functions *)

Inductive Outcome (A : Type) :=
| Done (a : A) (cam : QCCTV_LocalCamera) (log : list Event)
| Undefined.

Arguments Done {A} a cam log.
Arguments Undefined {A}.

Definition Cam (A : Type) := QCCTV_LocalCamera -> Outcome A.

Definition ret {A} (a : A) : Cam A := fun c => Done a c [].

Definition bind {A B} (m : Cam A) (k : A -> Cam B) : Cam B :=
  fun c =>
    match m c with
    | Done a c1 l1 =>
        match k a c1 with
        | Done b c2 l2 => Done b c2 (l1 ++ l2)
        | Undefined => Undefined
        end
    | Undefined => Undefined
    end.

Definition gets {A} (f : QCCTV_LocalCamera -> A) : Cam A :=
  fun c => Done (f c) c [].

Definition modify (f : QCCTV_LocalCamera -> QCCTV_LocalCamera) : Cam unit :=
  fun c => Done tt (f c) [].

Definition tell (e : Event) : Cam unit := fun c => Done tt c [e].

Definition undefined {A} : Cam A := fun _ => Undefined.

Definition when (b : bool) (m : Cam unit) : Cam unit :=
  if b then m else ret tt.

End LocalCamera.

Arguments Done {H A} a cam log.
Arguments Undefined {H A}.

Declare Scope cam_scope.
Delimit Scope cam_scope with cam.
Notation "x <- m ;; k" := (bind m (fun x => k))
  (at level 61, m at next level, right associativity) : cam_scope.
Notation "m ;; k" := (bind m (fun _ => k))
  (at level 61, right associativity) : cam_scope.
Local Open Scope cam_scope.

Section Members.

Context `{QCCTV_h}.

(** ** Getters *)

Definition fps : Cam Z := gets m_fps.

Definition lightStatus : Cam Z := gets m_flashlightStatus.

Definition isGrayscale : Cam bool :=
  gets (fun c => FrameGrabber_isGrayscale (m_frameGrabber c)).

Definition shrinkRatio : Cam qreal :=
  gets (fun c => FrameGrabber_shrinkRatio (m_frameGrabber c)).

Definition flashlightOn : Cam bool :=
  l <- lightStatus ;; ret (l =? QCCTV_FLASHLIGHT_ON).

Definition flashlightOff : Cam bool :=
  l <- lightStatus ;; ret (l =? QCCTV_FLASHLIGHT_OFF).

Definition cameraName : Cam QString := gets m_name.

Definition currentImage : Cam QImage := gets m_image.

Definition cameraStatus : Cam Z := gets m_cameraStatus.

Definition readyForCapture : Cam bool :=
  cam <- gets m_camera ;;
  cap <- gets m_capture ;;
  match cam, cap with
  | Some c, Some _ => ret (isReadyForCapture c)
  | _, _ => ret false
  end.

Definition flashlightAvailable : Cam bool :=
  cam <- gets m_camera ;;
  match cam with
  | Some c => ret (isFlashReady c)
  | None => ret false
  end.

Definition connectedHosts : Cam (list QString) :=
  socks <- gets m_sockets ;; ret (map peerAddress socks).

(** ** Slots and setters *)

Definition takePhoto : Cam unit :=
  ready <- readyForCapture ;;
  cam <- gets m_camera ;;
  match cam with
  | Some c => when ready (tell (capture_capture (camera_id c)))
  | None => ret tt
  end.

Definition focusCamera : Cam unit :=
  cam <- gets m_camera ;;
  match cam with
  | Some c =>
      tell (camera_searchAndLock (camera_id c)) ;;
      tell (emit focusStatusChanged)
  | None => ret tt
  end.

Definition setFPS (fps : Z) : Cam unit :=
  cur <- gets m_fps ;;
  when (negb (cur =? QCCTV_GET_VALID_FPS fps))
    (modify (with_fps (QCCTV_GET_VALID_FPS fps)) ;;
     tell (emit fpsChanged)).

Definition setCamera (camera : option QCamera) : Cam unit :=
  match camera with
  | Some c =>
      modify (with_camera (Some c) (Some (camera_id c))) ;;
      tell (camera_start (camera_id c))
  | None => ret tt
  end.

Definition QString_eqb (a b : QString) : bool :=
  if list_eq_dec Z.eq_dec a b then true else false.

Definition setName (name : QString) : Cam unit :=
  cur <- gets m_name ;;
  when (negb (QString_eqb cur name))
    (modify (with_name name) ;;
     tell (emit cameraNameChanged)).

Definition setGrayscale (gray : bool) : Cam unit :=
  modify (fun c =>
    with_frameGrabber (FrameGrabber_setGrayscale gray (m_frameGrabber c)) c).

Definition setShrinkRatio (ratio : qreal) : Cam unit :=
  modify (fun c =>
    with_frameGrabber (FrameGrabber_setShrinkRatio ratio (m_frameGrabber c)) c).

(** ** Status flags *)

Definition addStatusFlag (status : Z) : Cam unit :=
  cur <- gets m_cameraStatus ;;
  when (Z.land cur status =? 0)
    (modify (with_cameraStatus (Z.lor cur status)) ;;
     tell (emit cameraStatusChanged)).

Definition setCameraStatus (status : Z) : Cam unit :=
  modify (with_cameraStatus status) ;;
  tell (emit cameraStatusChanged).

Definition removeStatusFlag (status : Z) : Cam unit :=
  cur <- gets m_cameraStatus ;;
  when (negb (Z.land cur status =? 0))
    (modify (with_cameraStatus (Z.lxor cur status)) ;;
     tell (emit cameraStatusChanged)).

(** ** Flashlight *)

Definition setFlashlightStatus (status : Z) : Cam unit :=
  cur <- gets m_flashlightStatus ;;
  when (negb (cur =? status))
    (modify (with_flashlightStatus status) ;;
     cam <- gets m_camera ;;
     match cam with
     | None => ret tt
     | Some c =>
         avail <- flashlightAvailable ;;
         if negb avail then ret tt
         else
           on <- flashlightOn ;;
           (if on
            then tell (camera_setFlashMode (camera_id c) FlashVideoLight) ;;
                 focusCamera
            else tell (camera_setFlashMode (camera_id c) FlashOff)) ;;
           tell (emit lightStatusChanged)
     end).

Definition turnOnFlashlight : Cam unit :=
  setFlashlightStatus QCCTV_FLASHLIGHT_ON.

Definition turnOffFlashlight : Cam unit :=
  setFlashlightStatus QCCTV_FLASHLIGHT_OFF.

(** ** Health checks *)

Definition updateStatus : Cam unit :=
  cam <- gets m_camera ;;
  match cam with
  | None => addStatusFlag QCCTV_CAMSTATUS_VIDEO_FAILURE
  | Some c =>
      if negb (QCamera_Status_eqb (camera_status c) ActiveStatus)
      then addStatusFlag QCCTV_CAMSTATUS_VIDEO_FAILURE
      else removeStatusFlag QCCTV_CAMSTATUS_VIDEO_FAILURE
  end ;;
  avail <- flashlightAvailable ;;
  if negb avail
  then addStatusFlag QCCTV_CAMSTATUS_LIGHT_FAILURE
  else removeStatusFlag QCCTV_CAMSTATUS_LIGHT_FAILURE.

(** ** Frame encoding and broadcast *)

Definition append_char (b : byte) : Cam unit :=
  modify (fun c => with_dataStream (m_dataStream c ++ [b]) c).

Definition append_bytes (bs : QByteArray) : Cam unit :=
  modify (fun c => with_dataStream (m_dataStream c ++ bs) c).

Definition QString_length (s : QString) : Z := Z.of_nat (length s).

Definition generateDataStream : Cam unit :=
  buf <- gets m_dataStream ;;
  when (isEmpty buf)
    (name <- cameraName ;;
     append_char (to_char (QString_length name)) ;;
     name <- cameraName ;;
     append_bytes (toUtf8 name) ;;
     f <- fps ;;
     append_char (to_char f) ;;
     l <- lightStatus ;;
     append_char (to_char l) ;;
     s <- cameraStatus ;;
     append_char (to_char s) ;;
     img <- currentImage ;;
     when (negb (isNull img))
       (img <- currentImage ;;
        append_bytes (QImage_save img QCCTV_IMAGE_FORMAT 50)) ;;
     append_bytes QCCTV_EOD).

(** [foreach (QTcpSocket* socket, m_sockets) socket->write (data)] *)
Fixpoint write_all (socks : list QTcpSocket) (data : QByteArray) : Cam unit :=
  match socks with
  | [] => ret tt
  | s :: rest => tell (socket_write (socket_id s) data) ;; write_all rest data
  end.

Definition sendCameraData : Cam unit :=
  socks <- gets m_sockets ;;
  data <- gets m_dataStream ;;
  write_all socks data ;;
  modify (with_dataStream []).

(** ** The scheduler tick *)

(** [1000 / fps()] is C++ integer division, which truncates and is undefined
    for a zero divisor. *)
Definition update : Cam unit :=
  updateStatus ;;
  generateDataStream ;;
  sendCameraData ;;
  f <- fps ;;
  if f =? 0 then undefined
  else tell (singleShot (Z.quot 1000 f) PreciseTimer slot_update).

(** ** Discovery and connections *)

Definition QString_of (s : String.string) : QString :=
  map (fun a => Z.of_N (N_of_ascii a)) (String.list_ascii_of_string s).

Definition broadcastInfo : Cam unit :=
  tell (udp_writeDatagram (QString_of "QCCTV_DISCOVERY_SERVICE"%string)
          QCCTV_DISCOVERY_PORT) ;;
  tell (singleShot QCCTV_DISCVRY_PKT_TIMING PreciseTimer slot_broadcastInfo).

(** [m_sockets.removeAt (m_sockets.indexOf (socket))]: the first entry that
    is this socket goes; [removeAt (-1)] does nothing. *)
Fixpoint remove_socket (id : nat) (socks : list QTcpSocket) :=
  match socks with
  | [] => []
  | s :: rest =>
      if Nat.eqb (socket_id s) id then rest else s :: remove_socket id rest
  end.

Definition onDisconnected (sender : option QTcpSocket) : Cam unit :=
  match sender with
  | Some socket =>
      tell (socket_close (socket_id socket)) ;;
      modify (fun c =>
        with_sockets (remove_socket (socket_id socket) (m_sockets c)) c)
  | None => ret tt
  end.

(** One round of the [while (m_server.hasPendingConnections())] loop per
    pending connection. *)
Fixpoint accept_pending (pending : list QTcpSocket) : Cam unit :=
  match pending with
  | [] => ret tt
  | s :: rest =>
      modify (with_server {| pendingConnections := rest |}) ;;
      modify (fun c => with_sockets (m_sockets c ++ [s]) c) ;;
      tell (socket_configure (socket_id s)) ;;
      accept_pending rest
  end.

Definition acceptConnection : Cam unit :=
  pending <- gets (fun c => pendingConnections (m_server c)) ;;
  accept_pending pending.

(** ** Command packets *)

Definition at_ (data : QByteArray) (i : nat) : byte := nth i data 0.

Definition size (data : QByteArray) : Z := Z.of_nat (length data).

(** [sender] is the socket that raised [readyRead], if the sender is a
    socket; [data] is what [socket->readAll()] returns. *)
Definition readCommandPacket (sender : option QTcpSocket)
    (data : QByteArray) : Cam unit :=
  match sender with
  | Some _ =>
      if negb (size data =? 3) then ret tt
      else
        setFPS (char_to_int (at_ data 0)) ;;
        setFlashlightStatus (char_to_int (at_ data 1)) ;;
        when (char_to_int (at_ data 2) =? QCCTV_FORCE_FOCUS) focusCamera
  | None => ret tt
  end.

(** ** Frames from the grabber *)

Definition changeImage (image : QImage) : Cam unit :=
  when (negb (isNull image))
    (modify (with_image image) ;;
     tell (emit imageChanged)).

(** ** Construction *)

(** The object before the constructor body runs: the [int] members hold
    indeterminate values, the Qt members are default-constructed. *)
Definition default_initialised (fps0 status0 light0 : Z)
    (grabber : QCCTV_FrameGrabber) : QCCTV_LocalCamera :=
  {| m_fps := fps0; m_cameraStatus := status0; m_flashlightStatus := light0;
     m_name := []; m_image := QImage_null; m_dataStream := [];
     m_camera := None; m_capture := None; m_sockets := [];
     m_server := {| pendingConnections := [] |};
     m_frameGrabber := grabber |}.

Definition default_image : QImage :=
  QImage_data {| img_width := 320; img_height := 240;
                 img_bits := default_image_bits |}.

Definition constructor : Cam unit :=
  modify (with_camera None None) ;;
  setFPS QCCTV_DEFAULT_FPS ;;
  setName (QString_of "Unknown Camera"%string) ;;
  setCameraStatus QCCTV_CAMSTATUS_DEFAULT ;;
  setFlashlightStatus QCCTV_FLASHLIGHT_OFF ;;
  modify (with_image default_image) ;;
  tell (singleShot 1000 CoarseTimer slot_update) ;;
  tell (singleShot 1000 CoarseTimer slot_broadcastInfo).

(** ** Everything that can happen to a camera object *)

Inductive Call :=
| call_takePhoto | call_focusCamera
| call_turnOnFlashlight | call_turnOffFlashlight
| call_setFPS (fps : Z)
| call_setCamera (camera : option QCamera)
| call_setName (name : QString)
| call_setGrayscale (gray : bool)
| call_setShrinkRatio (ratio : qreal)
| call_update | call_updateStatus | call_sendCameraData
| call_broadcastInfo
| call_onDisconnected (sender : option QTcpSocket)
| call_acceptConnection
| call_readCommandPacket (sender : option QTcpSocket) (data : QByteArray)
| call_generateDataStream
| call_changeImage (image : QImage)
| call_addStatusFlag (status : Z)
| call_setCameraStatus (status : Z)
| call_removeStatusFlag (status : Z)
| call_setFlashlightStatus (status : Z)
(** the world outside: the device's readings change, a station connects *)
| device_changed (status : QCamera_Status) (flashReady captureReady : bool)
| station_connects (socket : QTcpSocket).

Definition perform (call : Call) : Cam unit :=
  match call with
  | call_takePhoto => takePhoto
  | call_focusCamera => focusCamera
  | call_turnOnFlashlight => turnOnFlashlight
  | call_turnOffFlashlight => turnOffFlashlight
  | call_setFPS n => setFPS n
  | call_setCamera c => setCamera c
  | call_setName n => setName n
  | call_setGrayscale g => setGrayscale g
  | call_setShrinkRatio r => setShrinkRatio r
  | call_update => update
  | call_updateStatus => updateStatus
  | call_sendCameraData => sendCameraData
  | call_broadcastInfo => broadcastInfo
  | call_onDisconnected s => onDisconnected s
  | call_acceptConnection => acceptConnection
  | call_readCommandPacket s d => readCommandPacket s d
  | call_generateDataStream => generateDataStream
  | call_changeImage i => changeImage i
  | call_addStatusFlag s => addStatusFlag s
  | call_setCameraStatus s => setCameraStatus s
  | call_removeStatusFlag s => removeStatusFlag s
  | call_setFlashlightStatus s => setFlashlightStatus s
  | device_changed st fl cap =>
      modify (fun c =>
        match m_camera c with
        | Some dev =>
            with_camera
              (Some {| camera_id := camera_id dev; camera_status := st;
                       isFlashReady := fl; isReadyForCapture := cap |})
              (m_capture c) c
        | None => c
        end)
  | station_connects s =>
      modify (fun c =>
        with_server
          {| pendingConnections := pendingConnections (m_server c) ++ [s] |} c)
  end.

(** The states a camera object goes through: the constructor's result, and
    whatever a call that returns leaves. *)
Inductive reachable : QCCTV_LocalCamera -> Prop :=
| reachable_constructed fps0 status0 light0 grabber cam log :
    constructor (default_initialised fps0 status0 light0 grabber)
      = Done tt cam log ->
    reachable cam
| reachable_call call cam cam' log :
    reachable cam ->
    perform call cam = Done tt cam' log ->
    reachable cam'.

End Members.

(** ** The image provider (QCCTV_LocalCameraImage)

    The provider keeps a pointer to the camera object and an error image
    made by [QCCTV_GET_STATUS_IMAGE], which the sources do not define; the
    error image is therefore an argument.  [m_localCamera] is the object the
    pointer refers to at the time of the request, [None] for a null
    pointer.  The three arguments of the request are unused
    ([Q_UNUSED]). *)
Definition requestImage `{QCCTV_h}
    (m_localCamera : option QCCTV_LocalCamera) (m_cameraError : QImage)
    (id : QString) (size requestedSize : Z * Z) : QImage :=
  match m_localCamera with
  | Some cam =>
      match currentImage cam with
      | Done image _ _ => image
      | Undefined => m_cameraError
      end
  | None => m_cameraError
  end.

(** ** Notions used in the statements *)

(** The device calls and signals of a light switch that reaches the device. *)
Definition light_switch_log `{QCCTV_h} (c : QCamera) (status : Z) :=
  (if status =? QCCTV_FLASHLIGHT_ON
   then [camera_setFlashMode (camera_id c) FlashVideoLight;
         camera_searchAndLock (camera_id c); emit focusStatusChanged]
   else [camera_setFlashMode (camera_id c) FlashOff])
  ++ [emit lightStatusChanged].

(** A computation keeps a property of the camera object whenever it
    returns. *)
Definition preserves `{QCCTV_h} {A} (P : QCCTV_LocalCamera -> Prop)
    (m : Cam A) : Prop :=
  forall cam a cam' log, P cam -> m cam = Done a cam' log -> P cam'.

(** A computation always returns. *)
Definition returns `{QCCTV_h} {A} (m : Cam A) : Prop :=
  forall cam, exists a cam' log, m cam = Done a cam' log.

Definition fps_in_range `{QCCTV_h} (cam : QCCTV_LocalCamera) : Prop :=
  QCCTV_MIN_FPS <= m_fps cam <= QCCTV_MAX_FPS.

Definition has_image `{QCCTV_h} (cam : QCCTV_LocalCamera) : Prop :=
  isNull (m_image cam) = false.

(** A status flag proper: a mask with one bit. *)
Definition is_flag (f : Z) : Prop := exists k, 0 <= k /\ f = 2 ^ k.

(** The bytes of a complete frame for a name, the three numbers and an
    image, as [generateDataStream] lays them out. *)
Definition frame `{QCCTV_h} (name : QString) (rate light status : Z)
    (image : QImage) : QByteArray :=
  [to_char (QString_length name)] ++ toUtf8 name
  ++ [to_char rate] ++ [to_char light] ++ [to_char status]
  ++ (if isNull image then [] else QImage_save image QCCTV_IMAGE_FORMAT 50)
  ++ QCCTV_EOD.

(** The outbound buffer holds nothing or one complete frame. *)
Definition buffer_is_frame `{QCCTV_h} (cam : QCCTV_LocalCamera) : Prop :=
  m_dataStream cam = []
  \/ exists name rate light status image,
       m_dataStream cam = frame name rate light status image.

(** The capture object exists exactly when a camera is set, and is bound to
    that camera. *)
Definition capture_bound `{QCCTV_h} (cam : QCCTV_LocalCamera) : Prop :=
  m_capture cam = option_map camera_id (m_camera cam).

Definition camera_set `{QCCTV_h} (cam : QCCTV_LocalCamera) : Prop :=
  m_camera cam <> None.

(** The frame rate is a value [QCCTV_GET_VALID_FPS] has returned. *)
Definition fps_validated `{QCCTV_h} (cam : QCCTV_LocalCamera) : Prop :=
  exists n, m_fps cam = QCCTV_GET_VALID_FPS n.

(** Number of focus requests ([searchAndLock]) sent to the device. *)
Fixpoint focus_requests (log : list Event) : nat :=
  match log with
  | [] => 0%nat
  | camera_searchAndLock _ :: rest => S (focus_requests rest)
  | _ :: rest => focus_requests rest
  end.

(** The socket ids written to, in order. *)
Fixpoint written_sockets (log : list Event) : list nat :=
  match log with
  | [] => []
  | socket_write id _ :: rest => id :: written_sockets rest
  | _ :: rest => written_sockets rest
  end.

Definition distinct_sockets `{QCCTV_h} (cam : QCCTV_LocalCamera) : Prop :=
  NoDup (map socket_id (m_sockets cam)).


(** The two probes of the status refresh: no active camera, no ready
    flashlight. *)
Definition video_failed `{QCCTV_h} (cam : QCCTV_LocalCamera) : bool :=
  match m_camera cam with
  | Some c => negb (QCamera_Status_eqb (camera_status c) ActiveStatus)
  | None => true
  end.

Definition light_failed `{QCCTV_h} (cam : QCCTV_LocalCamera) : bool :=
  match m_camera cam with
  | Some c => negb (isFlashReady c)
  | None => true
  end.

(** The status after one probe: a failed probe ors the flag in when no bit
    of it is set, a passed probe xors it out when some bit of it is set. *)
Definition probe_status (failed : bool) (f s : Z) : Z :=
  if failed
  then (if Z.land s f =? 0 then Z.lor s f else s)
  else (if Z.land s f =? 0 then s else Z.lxor s f).

(** The signal of one probe: one status change exactly when it wrote. *)
Definition probe_signal (failed : bool) (f s : Z) : list Event :=
  if Bool.eqb failed (Z.land s f =? 0) then [emit cameraStatusChanged]
  else [].

(** The status flags after the refresh: video probe first, light probe
    second. *)
Definition refreshed_status `{QCCTV_h} (cam : QCCTV_LocalCamera) : Z :=
  probe_status (light_failed cam) QCCTV_CAMSTATUS_LIGHT_FAILURE
    (probe_status (video_failed cam) QCCTV_CAMSTATUS_VIDEO_FAILURE
       (m_cameraStatus cam)).

(** ** A sample header and sample objects

    One choice of the missing constants, in line with the scenarios of the
    specification (light status 1 is "on", command byte 0 asks for no
    focus, frame rates from 1 to 60), and a stand-in codec that writes the
    pixel bytes as they are.  Used for concrete runs only. *)
#[local] Instance sample_header : QCCTV_h := {|
  char_is_signed := true;
  QCCTV_MIN_FPS := 1;
  QCCTV_MAX_FPS := 60;
  QCCTV_DEFAULT_FPS := 24;
  QCCTV_FLASHLIGHT_ON := 1;
  QCCTV_FLASHLIGHT_OFF := 0;
  QCCTV_CAMSTATUS_DEFAULT := 0;
  QCCTV_CAMSTATUS_VIDEO_FAILURE := 8;
  QCCTV_CAMSTATUS_LIGHT_FAILURE := 16;
  QCCTV_FORCE_FOCUS := 1;
  QCCTV_EOD := [81; 67; 67; 84; 86; 95; 69; 79; 68];
  QCCTV_IMAGE_FORMAT := [74; 80; 71];
  QCCTV_STREAM_PORT := 1100;
  QCCTV_DISCOVERY_PORT := 1150;
  QCCTV_DISCVRY_PKT_TIMING := 1000;
  toUtf8 := fun s => s;
  QImage_save := fun img _ _ =>
    match img with
    | QImage_null => []
    | QImage_data d => img_bits d
    end;
  default_image_bits := [0; 0; 0; 255];
  qreal := Z;
  QCCTV_FrameGrabber := bool * Z;
  FrameGrabber_isGrayscale := fst;
  FrameGrabber_shrinkRatio := snd;
  FrameGrabber_setGrayscale := fun g fg => (g, snd fg);
  FrameGrabber_setShrinkRatio := fun r fg => (fst fg, r)
|}.

(** A camera as the constructor leaves it, named "Cam1" at 15 frames per
    second, with no device attached and no station connected. *)
Definition sample_camera : QCCTV_LocalCamera :=
  {| m_fps := 15; m_cameraStatus := 0; m_flashlightStatus := 0;
     m_name := [67; 97; 109; 49]; m_image := default_image;
     m_dataStream := [];
     m_camera := None; m_capture := None; m_sockets := [];
     m_server := {| pendingConnections := [] |};
     m_frameGrabber := (false, 1) |}.

Definition sample_device : QCamera :=
  {| camera_id := 7%nat; camera_status := ActiveStatus;
     isFlashReady := true; isReadyForCapture := true |}.

Definition sample_station (n : nat) : QTcpSocket :=
  {| socket_id := n; peerAddress := [49; 48; 46; 48; 46; 48; 46; Z.of_nat n] |}.

(** The sample camera with a device, two stations and a frame waiting. *)
Definition sample_streaming : QCCTV_LocalCamera :=
  with_dataStream [4; 67; 97; 109; 49; 15; 0; 0; 9; 9]
    (with_sockets [sample_station 1; sample_station 2]
       (with_camera (Some sample_device) (Some 7%nat) sample_camera)).

(** The sample camera with the device attached and two stations connected,
    nothing waiting in the buffer. *)
Definition sample_live : QCCTV_LocalCamera :=
  with_sockets [sample_station 1; sample_station 2]
    (with_camera (Some sample_device) (Some 7%nat) sample_camera).

(** The same with its own frame encoded and waiting. *)
Definition sample_waiting : QCCTV_LocalCamera :=
  with_dataStream (frame [67; 97; 109; 49] 15 0 0 default_image) sample_live.

(** The sample camera with two stations and no device. *)
Definition sample_unplugged : QCCTV_LocalCamera :=
  with_sockets [sample_station 1; sample_station 2] sample_camera.

(** * Properties *)

(** ** Running the monad *)

Ltac run_cam :=
  cbv [bind gets modify tell ret when undefined negb
       fps lightStatus cameraName currentImage cameraStatus
       flashlightOn flashlightOff flashlightAvailable readyForCapture
       append_char append_bytes];
  cbn [app m_fps m_cameraStatus m_flashlightStatus m_name m_image
       m_dataStream m_camera m_capture m_sockets m_server m_frameGrabber
       with_fps with_cameraStatus with_flashlightStatus with_name with_image
       with_dataStream with_camera with_sockets with_server
       with_frameGrabber].

Lemma bind_Done `{QCCTV_h} {A B} (m : Cam A) (k : A -> Cam B) cam a cam1 l1 :
  m cam = Done a cam1 l1 ->
  bind m k cam =
  match k a cam1 with
  | Done b cam2 l2 => Done b cam2 (l1 ++ l2)
  | Undefined => Undefined
  end.
Proof. intros E. unfold bind. rewrite E. reflexivity. Qed.

Lemma with_dataStream_same `{QCCTV_h} cam :
  with_dataStream (m_dataStream cam) cam = cam.
Proof. destruct cam; reflexivity. Qed.

Lemma with_fps_same `{QCCTV_h} cam : with_fps (m_fps cam) cam = cam.
Proof. destruct cam; reflexivity. Qed.

Lemma with_name_same `{QCCTV_h} cam : with_name (m_name cam) cam = cam.
Proof. destruct cam; reflexivity. Qed.

Lemma with_cameraStatus_same `{QCCTV_h} cam :
  with_cameraStatus (m_cameraStatus cam) cam = cam.
Proof. destruct cam; reflexivity. Qed.

Lemma with_flashlightStatus_same `{QCCTV_h} cam :
  with_flashlightStatus (m_flashlightStatus cam) cam = cam.
Proof. destruct cam; reflexivity. Qed.

(** The command bytes 30, 1, 0 on a camera with a ready flashlight: the
    frame rate becomes 30 and the light status "on".  The third byte asks
    for no focus; the one [searchAndLock] in the log is the focus that
    turning the light on brings with it. *)
Example command_30_1_0 :
  readCommandPacket (Some (sample_station 1)) [30; 1; 0] sample_streaming
  = Done tt
      (with_flashlightStatus 1 (with_fps 30 sample_streaming))
      [emit fpsChanged;
       camera_setFlashMode 7 FlashVideoLight;
       camera_searchAndLock 7; emit focusStatusChanged;
       emit lightStatusChanged].
Proof. reflexivity. Qed.

(** The frame of the sample camera: "Cam1" at 15 fps, light off, no flags. *)
Example frame_of_sample_camera :
  generateDataStream sample_camera
  = Done tt
      (with_dataStream
         ([4] ++ [67; 97; 109; 49] ++ [15] ++ [0] ++ [0]
          ++ [0; 0; 0; 255] ++ [81; 67; 67; 84; 86; 95; 69; 79; 68])
         sample_camera)
      [].
Proof. reflexivity. Qed.

(** ** Frame encoding *)

Lemma to_char_is_byte n : is_byte (to_char n).
Proof. unfold is_byte, to_char. apply Z.mod_pos_bound. lia. Qed.

Lemma to_char_exact n : is_byte n -> to_char n = n.
Proof. unfold is_byte, to_char. intros Hn. apply Z.mod_small. exact Hn. Qed.

(** What [generateDataStream] leaves in an empty buffer. *)
Lemma generateDataStream_empty `{QCCTV_h} cam :
  isEmpty (m_dataStream cam) = true ->
  generateDataStream cam
  = Done tt
      (with_dataStream
         ([to_char (QString_length (m_name cam))]
          ++ toUtf8 (m_name cam)
          ++ [to_char (m_fps cam)]
          ++ [to_char (m_flashlightStatus cam)]
          ++ [to_char (m_cameraStatus cam)]
          ++ (if isNull (m_image cam) then []
              else QImage_save (m_image cam) QCCTV_IMAGE_FORMAT 50)
          ++ QCCTV_EOD)
         cam)
      [].
Proof.
  intros Hempty. unfold generateDataStream. run_cam.
  rewrite Hempty.
  destruct (m_dataStream cam) as [|b bs]; [|discriminate].
  destruct (isNull (m_image cam)); run_cam;
    repeat rewrite <- app_assoc; reflexivity.
Qed.

Lemma generateDataStream_pending `{QCCTV_h} cam :
  isEmpty (m_dataStream cam) = false ->
  generateDataStream cam = Done tt cam [].
Proof.
  intros Hfull. unfold generateDataStream. run_cam.
  rewrite Hfull. reflexivity.
Qed.

(** C1: while an encoded frame is waiting in the outbound buffer, frame
    encoding does nothing: the camera object is the same afterwards and
    nothing is signalled.  Hence encoding twice in a row, with no broadcast
    in between, leaves what encoding once leaves. *)
Theorem generateDataStream_backpressure `{QCCTV_h} (cam : QCCTV_LocalCamera) :
  (isEmpty (m_dataStream cam) = false ->
   generateDataStream cam = Done tt cam [])
  /\ (generateDataStream ;; generateDataStream) cam = generateDataStream cam.
Proof.
  split; [apply generateDataStream_pending|].
  destruct (isEmpty (m_dataStream cam)) eqn:Hbuf.
  - rewrite (bind_Done _ _ _ _ _ _ (generateDataStream_empty cam Hbuf)).
    rewrite generateDataStream_pending by reflexivity.
    rewrite generateDataStream_empty by exact Hbuf.
    reflexivity.
  - rewrite (bind_Done _ _ _ _ _ _ (generateDataStream_pending cam Hbuf)).
    rewrite generateDataStream_pending by exact Hbuf.
    reflexivity.
Qed.

Lemma generateDataStream_backpressure_witness :
  isEmpty (m_dataStream sample_streaming) = false
  /\ generateDataStream sample_streaming = Done tt sample_streaming []
  /\ (generateDataStream ;; generateDataStream) sample_camera
     = generateDataStream sample_camera.
Proof.
  split; [reflexivity|]. split.
  - apply (proj1 (generateDataStream_backpressure sample_streaming)).
    reflexivity.
  - apply (proj2 (generateDataStream_backpressure sample_camera)).
Defined.

(** C2: the frame that [generateDataStream] puts into an empty buffer is, in
    this order: one byte with the length of the name, the bytes of the name,
    one byte with the frame rate, one byte with the light status, one byte
    with the status flags, the compressed image (nothing for a null image)
    and the end marker.  Each of the four numbers is stored as a [char], so
    the byte is the number itself whenever the number fits a byte. *)
Theorem generateDataStream_layout `{QCCTV_h} (cam : QCCTV_LocalCamera) :
  isEmpty (m_dataStream cam) = true ->
  exists name_length fps_byte light_byte status_byte payload cam',
    generateDataStream cam = Done tt cam' []
    /\ m_dataStream cam'
       = [name_length] ++ toUtf8 (m_name cam)
         ++ [fps_byte] ++ [light_byte] ++ [status_byte]
         ++ payload ++ QCCTV_EOD
    /\ cam' = with_dataStream (m_dataStream cam') cam
    /\ name_length = to_char (QString_length (m_name cam))
    /\ fps_byte = to_char (m_fps cam)
    /\ light_byte = to_char (m_flashlightStatus cam)
    /\ status_byte = to_char (m_cameraStatus cam)
    /\ payload = (if isNull (m_image cam) then []
                  else QImage_save (m_image cam) QCCTV_IMAGE_FORMAT 50)
    /\ (is_byte name_length /\ is_byte fps_byte
        /\ is_byte light_byte /\ is_byte status_byte)
    /\ (QString_length (m_name cam) < 256 ->
        name_length = QString_length (m_name cam))
    /\ (is_byte (m_fps cam) -> fps_byte = m_fps cam)
    /\ (is_byte (m_flashlightStatus cam) ->
        light_byte = m_flashlightStatus cam)
    /\ (is_byte (m_cameraStatus cam) -> status_byte = m_cameraStatus cam).
Proof.
  intros Hempty.
  eexists _, _, _, _, _, _.
  split; [apply generateDataStream_empty; exact Hempty|].
  cbn [m_dataStream with_dataStream].
  split; [reflexivity|].
  split; [reflexivity|].
  repeat (split; [reflexivity|]).
  split; [repeat split; apply to_char_is_byte|].
  split.
  - intros Hlen. apply to_char_exact. unfold is_byte, QString_length in *. lia.
  - repeat split; apply to_char_exact.
Qed.

Lemma generateDataStream_layout_witness :
  isEmpty (m_dataStream sample_camera) = true
  /\ exists cam',
       generateDataStream sample_camera = Done tt cam' []
       /\ m_dataStream cam'
          = [4] ++ [67; 97; 109; 49] ++ [15] ++ [0] ++ [0]
            ++ [0; 0; 0; 255] ++ QCCTV_EOD.
Proof.
  split; [reflexivity|].
  destruct (generateDataStream_layout sample_camera eq_refl)
    as (n & f & l & s & p & cam' & Hrun & Hbuf & _ & Hn & Hf & Hl & Hs & Hp & _).
  exists cam'. split; [exact Hrun|].
  rewrite Hbuf, Hn, Hf, Hl, Hs, Hp. reflexivity.
Defined.

(** ** Explicit results of the setters *)

Lemma setFPS_result `{QCCTV_h} n cam :
  setFPS n cam
  = if m_fps cam =? QCCTV_GET_VALID_FPS n then Done tt cam []
    else Done tt (with_fps (QCCTV_GET_VALID_FPS n) cam) [emit fpsChanged].
Proof.
  unfold setFPS. run_cam.
  destruct (m_fps cam =? QCCTV_GET_VALID_FPS n); reflexivity.
Qed.

Lemma QString_eqb_eq a b : QString_eqb a b = true <-> a = b.
Proof.
  unfold QString_eqb. destruct (list_eq_dec Z.eq_dec a b); split;
    intros; congruence.
Qed.

Lemma setName_result `{QCCTV_h} name cam :
  setName name cam
  = if QString_eqb (m_name cam) name then Done tt cam []
    else Done tt (with_name name cam) [emit cameraNameChanged].
Proof.
  unfold setName. run_cam.
  destruct (QString_eqb (m_name cam) name); reflexivity.
Qed.

Lemma setCameraStatus_result `{QCCTV_h} status cam :
  setCameraStatus status cam
  = Done tt (with_cameraStatus status cam) [emit cameraStatusChanged].
Proof. reflexivity. Qed.

Lemma addStatusFlag_result `{QCCTV_h} f cam :
  addStatusFlag f cam
  = if Z.land (m_cameraStatus cam) f =? 0
    then Done tt (with_cameraStatus (Z.lor (m_cameraStatus cam) f) cam)
           [emit cameraStatusChanged]
    else Done tt cam [].
Proof.
  unfold addStatusFlag. run_cam.
  destruct (Z.land (m_cameraStatus cam) f =? 0); reflexivity.
Qed.

Lemma removeStatusFlag_result `{QCCTV_h} f cam :
  removeStatusFlag f cam
  = if Z.land (m_cameraStatus cam) f =? 0
    then Done tt cam []
    else Done tt (with_cameraStatus (Z.lxor (m_cameraStatus cam) f) cam)
           [emit cameraStatusChanged].
Proof.
  unfold removeStatusFlag. run_cam.
  destruct (Z.land (m_cameraStatus cam) f =? 0); reflexivity.
Qed.

Lemma focusCamera_result `{QCCTV_h} cam :
  focusCamera cam
  = Done tt cam
      match m_camera cam with
      | Some c => [camera_searchAndLock (camera_id c); emit focusStatusChanged]
      | None => []
      end.
Proof.
  unfold focusCamera. run_cam. destruct (m_camera cam); reflexivity.
Qed.

Lemma setFlashlightStatus_result `{QCCTV_h} status cam :
  setFlashlightStatus status cam
  = if m_flashlightStatus cam =? status then Done tt cam []
    else Done tt (with_flashlightStatus status cam)
           match m_camera cam with
           | Some c =>
               if isFlashReady c then light_switch_log c status else []
           | None => []
           end.
Proof.
  unfold setFlashlightStatus, light_switch_log, focusCamera. run_cam.
  destruct (m_flashlightStatus cam =? status); run_cam; [reflexivity|].
  destruct (m_camera cam) as [c|] eqn:Hcam; run_cam; [|reflexivity].
  rewrite Hcam.
  destruct (isFlashReady c); run_cam; [|reflexivity].
  destruct (status =? QCCTV_FLASHLIGHT_ON); run_cam;
    rewrite ?Hcam; reflexivity.
Qed.

(** ** Command packets *)

Lemma char_to_int_small `{QCCTV_h} b : 0 <= b < 128 -> char_to_int b = b.
Proof.
  intros Hb. unfold char_to_int.
  destruct (Z.leb_spec 128 b); [lia|].
  rewrite andb_false_r. reflexivity.
Qed.

(** C3: a command packet whose length is not 3 is dropped: the camera
    object is unchanged and nothing is signalled or sent to the device.  A
    packet of length 3 read from a socket is taken byte by byte as the
    requested frame rate, the requested light status and the focus flag,
    and the three are applied in this order: the clamped rate is stored
    (signalled when it changes), then the light status is stored and, with
    a ready flashlight, switched on the device, then the device is asked to
    focus when the third byte is the focus flag and a camera is set. *)
Theorem readCommandPacket_length `{QCCTV_h} (sender : option QTcpSocket)
    (data : QByteArray) (cam : QCCTV_LocalCamera) :
  (size data <> 3 -> readCommandPacket sender data cam = Done tt cam [])
  /\ (size data = 3 -> forall socket, sender = Some socket ->
      exists cam1 log1 cam2 log2 log3,
        setFPS (char_to_int (at_ data 0)) cam = Done tt cam1 log1
        /\ setFlashlightStatus (char_to_int (at_ data 1)) cam1
           = Done tt cam2 log2
        /\ when (char_to_int (at_ data 2) =? QCCTV_FORCE_FOCUS) focusCamera cam2
           = Done tt cam2 log3
        /\ readCommandPacket sender data cam
           = Done tt cam2 (log1 ++ log2 ++ log3)
        /\ m_fps cam2 = QCCTV_GET_VALID_FPS (char_to_int (at_ data 0))
        /\ m_flashlightStatus cam2 = char_to_int (at_ data 1)
        /\ (char_to_int (at_ data 2) <> QCCTV_FORCE_FOCUS -> log3 = [])
        /\ cam2
           = with_flashlightStatus (char_to_int (at_ data 1))
               (with_fps (QCCTV_GET_VALID_FPS (char_to_int (at_ data 0))) cam)
        /\ log1
           = (if m_fps cam =? QCCTV_GET_VALID_FPS (char_to_int (at_ data 0))
              then [] else [emit fpsChanged])
        /\ log2
           = (if m_flashlightStatus cam =? char_to_int (at_ data 1) then []
              else
                match m_camera cam with
                | Some c =>
                    if isFlashReady c
                    then
                      (if char_to_int (at_ data 1) =? QCCTV_FLASHLIGHT_ON
                       then [camera_setFlashMode (camera_id c) FlashVideoLight;
                             camera_searchAndLock (camera_id c);
                             emit focusStatusChanged]
                       else [camera_setFlashMode (camera_id c) FlashOff])
                      ++ [emit lightStatusChanged]
                    else []
                | None => []
                end)
        /\ log3
           = (if char_to_int (at_ data 2) =? QCCTV_FORCE_FOCUS
              then
                match m_camera cam with
                | Some c => [camera_searchAndLock (camera_id c);
                             emit focusStatusChanged]
                | None => []
                end
              else [])).
Proof.
  split.
  - intros Hsize. unfold readCommandPacket.
    destruct sender; [|reflexivity].
    destruct (Z.eqb_spec (size data) 3); [contradiction|reflexivity].
  - intros Hsize socket ->. unfold readCommandPacket.
    rewrite Hsize. cbn [Z.eqb Pos.eqb negb].
    set (n := char_to_int (at_ data 0)).
    set (l := char_to_int (at_ data 1)).
    set (f := char_to_int (at_ data 2) =? QCCTV_FORCE_FOCUS).
    set (cam1 := with_fps (QCCTV_GET_VALID_FPS n) cam).
    set (cam2 := with_flashlightStatus l cam1).
    assert (E1 : setFPS n cam
                 = Done tt cam1
                     (if m_fps cam =? QCCTV_GET_VALID_FPS n then []
                      else [emit fpsChanged])).
    { rewrite setFPS_result. subst cam1.
      destruct (Z.eqb_spec (m_fps cam) (QCCTV_GET_VALID_FPS n)) as [Heq|_];
        [|reflexivity].
      rewrite <- Heq, with_fps_same. reflexivity. }
    assert (E2 : setFlashlightStatus l cam1
                 = Done tt cam2
                     (if m_flashlightStatus cam =? l then []
                      else
                        match m_camera cam with
                        | Some c =>
                            if isFlashReady c then light_switch_log c l
                            else []
                        | None => []
                        end)).
    { rewrite setFlashlightStatus_result. subst cam2 cam1.
      cbn [m_flashlightStatus m_camera with_fps].
      destruct (Z.eqb_spec (m_flashlightStatus cam) l) as [Heq|_];
        [|reflexivity].
      f_equal. rewrite <- Heq. destruct cam; reflexivity. }
    assert (E3 : when f focusCamera cam2
                 = Done tt cam2
                     (if f
                      then
                        match m_camera cam with
                        | Some c => [camera_searchAndLock (camera_id c);
                                     emit focusStatusChanged]
                        | None => []
                        end
                      else [])).
    { destruct f; cbn [when]; [|reflexivity].
      rewrite focusCamera_result. reflexivity. }
    eexists cam1, _, cam2, _, _.
    split; [exact E1|]. split; [exact E2|]. split; [exact E3|].
    split.
    { rewrite (bind_Done _ _ _ _ _ _ E1).
      rewrite (bind_Done _ _ _ _ _ _ E2).
      rewrite E3. reflexivity. }
    split; [reflexivity|]. split; [reflexivity|].
    split.
    { intros Hne. subst f.
      destruct (Z.eqb_spec (char_to_int (at_ data 2)) QCCTV_FORCE_FOCUS);
        [contradiction|reflexivity]. }
    split; [reflexivity|]. split; [reflexivity|].
    split; reflexivity.
Qed.

Lemma readCommandPacket_length_witness :
  size [30; 1] <> 3
  /\ readCommandPacket (Some (sample_station 1)) [30; 1] sample_streaming
     = Done tt sample_streaming []
  /\ size [30; 1; 1] = 3
  /\ readCommandPacket (Some (sample_station 1)) [30; 1; 1] sample_live
     = Done tt (with_flashlightStatus 1 (with_fps 30 sample_live))
         ([emit fpsChanged]
          ++ [camera_setFlashMode 7 FlashVideoLight;
              camera_searchAndLock 7; emit focusStatusChanged;
              emit lightStatusChanged]
          ++ [camera_searchAndLock 7; emit focusStatusChanged]).
Proof.
  split; [discriminate|]. split.
  - apply (proj1 (readCommandPacket_length
                    (Some (sample_station 1)) [30; 1] sample_streaming)).
    discriminate.
  - split; [reflexivity|].
    destruct (proj2 (readCommandPacket_length
                       (Some (sample_station 1)) [30; 1; 1] sample_live)
                eq_refl (sample_station 1) eq_refl)
      as (c1 & l1 & c2 & l2 & l3 & _ & _ & _ & Hrun & _ & _ & _
          & Hc2 & Hl1 & Hl2 & Hl3).
    rewrite Hrun, Hc2, Hl1, Hl2, Hl3. reflexivity.
Defined.

(** ** Light status *)

(** The claim C4 as it is written fails: with no camera set, asking for
    another light status does change the stored light status. *)
Lemma setFlashlightStatus_unavailable_counterexample :
  ~ (forall (cam cam' : @QCCTV_LocalCamera sample_header) (status : Z)
            (log : list Event),
       flashlightAvailable cam = Done false cam [] ->
       setFlashlightStatus status cam = Done tt cam' log ->
       m_flashlightStatus cam' = m_flashlightStatus cam).
Proof.
  intros Hclaim.
  pose proof (Hclaim sample_camera (with_flashlightStatus 1 sample_camera) 1 []
                eq_refl eq_refl) as Hsame.
  discriminate Hsame.
Qed.

(** C4, amended: when the flashlight is reported unavailable (no camera is
    set, or the device says the flash is not ready), a light-status request
    stores the requested status and does nothing else: no signal is emitted,
    no call reaches the device, and every other member is unchanged. *)
Theorem setFlashlightStatus_unavailable `{QCCTV_h} (status : Z)
    (cam : QCCTV_LocalCamera) :
  flashlightAvailable cam = Done false cam [] ->
  setFlashlightStatus status cam
  = Done tt (with_flashlightStatus status cam) []
  /\ m_flashlightStatus (with_flashlightStatus status cam) = status
  /\ (m_flashlightStatus cam = status ->
      with_flashlightStatus status cam = cam).
Proof.
  intros Hoff. split; [|split; [reflexivity|]].
  - rewrite setFlashlightStatus_result.
    destruct (Z.eqb_spec (m_flashlightStatus cam) status) as [Heq|Hne].
    + rewrite <- Heq, with_flashlightStatus_same. reflexivity.
    + revert Hoff. unfold flashlightAvailable. run_cam.
      destruct (m_camera cam) as [c|]; [|reflexivity].
      intros Hoff. inversion Hoff as [Hready]. rewrite Hready. reflexivity.
  - intros <-. apply with_flashlightStatus_same.
Qed.

Lemma setFlashlightStatus_unavailable_witness :
  flashlightAvailable sample_camera = Done false sample_camera []
  /\ setFlashlightStatus 1 sample_camera
     = Done tt (with_flashlightStatus 1 sample_camera) [].
Proof.
  split; [reflexivity|].
  apply (setFlashlightStatus_unavailable 1 sample_camera). reflexivity.
Defined.

(** ** Properties kept by every call *)

Section Preservation.

Context `{QCCTV_h}.
Variable P : QCCTV_LocalCamera -> Prop.

Lemma preserves_ret {A} (a : A) : preserves P (ret a).
Proof. intros cam a' cam' log HP E. inversion E; subst. exact HP. Qed.

Lemma preserves_gets {A} (f : QCCTV_LocalCamera -> A) : preserves P (gets f).
Proof. intros cam a' cam' log HP E. inversion E; subst. exact HP. Qed.

Lemma preserves_tell e : preserves P (tell e).
Proof. intros cam a' cam' log HP E. inversion E; subst. exact HP. Qed.

Lemma preserves_undefined {A} : preserves P (@undefined _ A).
Proof. intros cam a' cam' log HP E. discriminate E. Qed.

Lemma preserves_modify f :
  (forall cam, P cam -> P (f cam)) -> preserves P (modify f).
Proof.
  intros Hf cam a' cam' log HP E. inversion E; subst. apply Hf, HP.
Qed.

Lemma preserves_bind {A B} (m : Cam A) (k : A -> Cam B) :
  preserves P m -> (forall a, preserves P (k a)) -> preserves P (bind m k).
Proof.
  intros Hm Hk cam b cam' log HP E. unfold bind in E.
  destruct (m cam) as [a cam1 l1|] eqn:E1; [|discriminate].
  destruct (k a cam1) as [b' cam2 l2|] eqn:E2; [|discriminate].
  inversion E; subst.
  eapply Hk; [|exact E2]. eapply Hm; [exact HP|exact E1].
Qed.

Lemma preserves_when b m : preserves P m -> preserves P (when b m).
Proof. intros Hm. destruct b; [exact Hm|apply preserves_ret]. Qed.

Lemma preserves_write_all socks data : preserves P (write_all socks data).
Proof.
  induction socks as [|s rest IH]; cbn [write_all].
  - apply preserves_ret.
  - apply preserves_bind; [apply preserves_tell|intros _; exact IH].
Qed.

End Preservation.

Ltac preserve_with leaf :=
  repeat
    match goal with
    | |- preserves _ (bind _ _) => apply preserves_bind; [|intros ?]
    | |- preserves _ (ret _) => apply preserves_ret
    | |- preserves _ (gets _) => apply preserves_gets
    | |- preserves _ (tell _) => apply preserves_tell
    | |- preserves _ undefined => apply preserves_undefined
    | |- preserves _ (when _ _) => apply preserves_when
    | |- preserves _ (write_all _ _) => apply preserves_write_all
    | |- preserves _ (modify _) => apply preserves_modify; leaf
    | |- preserves _ (match ?x with _ => _ end) => destruct x
    end.

Ltac unfold_members :=
  unfold takePhoto, focusCamera, turnOnFlashlight, turnOffFlashlight,
    setCamera, setName, setGrayscale, setShrinkRatio, update, updateStatus,
    sendCameraData, broadcastInfo, onDisconnected, acceptConnection,
    readCommandPacket, generateDataStream, addStatusFlag, setCameraStatus,
    removeStatusFlag, setFlashlightStatus, changeImage,
    fps, lightStatus, cameraName, currentImage, cameraStatus,
    flashlightOn, flashlightOff, flashlightAvailable, readyForCapture,
    append_char, append_bytes.

Section Invariants.

Context `{QCCTV_h}.

Lemma accept_pending_keeps (P : QCCTV_LocalCamera -> Prop) pending :
  (forall v cam, P cam -> P (with_server v cam)) ->
  (forall v cam, P cam -> P (with_sockets v cam)) ->
  preserves P (accept_pending pending).
Proof.
  intros Hserver Hsockets.
  induction pending as [|s rest IH]; cbn [accept_pending].
  - apply preserves_ret.
  - preserve_with ltac:(intros c Hc; auto). exact IH.
Qed.

Lemma setFPS_keeps_image n : preserves has_image (setFPS n).
Proof. unfold setFPS. preserve_with ltac:(intros c Hc; exact Hc). Qed.

Lemma changeImage_keeps_image image : preserves has_image (changeImage image).
Proof.
  unfold changeImage. destruct (isNull image) eqn:Himg; cbn [negb when].
  - apply preserves_ret.
  - preserve_with ltac:(intros c _; exact Himg).
Qed.

(** No call ever stores a null image. *)
Lemma perform_keeps_image call : preserves has_image (perform call).
Proof.
  destruct call; cbn [perform];
    try apply setFPS_keeps_image; try apply changeImage_keeps_image;
    repeat progress unfold_members;
    try (preserve_with ltac:(intros c Hc; exact Hc);
         solve [apply setFPS_keeps_image
               |apply accept_pending_keeps; intros v c Hc; exact Hc]).
  (* the device's readings change *)
  apply preserves_modify. intros c Hc.
  destruct (m_camera c); exact Hc.
Qed.

Lemma bind_inv {A B} (m : Cam A) (k : A -> Cam B) cam b cam' log :
  bind m k cam = Done b cam' log ->
  exists a cam1 l1 l2,
    m cam = Done a cam1 l1 /\ k a cam1 = Done b cam' l2 /\ log = l1 ++ l2.
Proof.
  unfold bind. intros E.
  destruct (m cam) as [a cam1 l1|]; [|discriminate].
  destruct (k a cam1) as [b' cam2 l2|] eqn:E2; [|discriminate].
  inversion E; subst. exists a, cam1, l1, l2. auto.
Qed.

Lemma constructor_sets_image fps0 status0 light0 grabber cam log :
  constructor (default_initialised fps0 status0 light0 grabber)
  = Done tt cam log ->
  has_image cam.
Proof.
  unfold constructor. intros E.
  do 5 (apply bind_inv in E; destruct E as (? & ? & ? & ? & _ & E & _)).
  apply bind_inv in E. destruct E as (? & cam1 & ? & l2 & E1 & E & _).
  assert (Himg : has_image cam1) by (inversion E1; reflexivity).
  revert E. apply (preserves_bind has_image); [|intros ?|exact Himg];
    apply preserves_tell.
Qed.

(** The image invariant: a null image is never the current image. *)
Lemma reachable_has_image cam : reachable cam -> has_image cam.
Proof.
  induction 1 as [? ? ? ? cam log E|call cam cam' log _ IH E].
  - eapply constructor_sets_image, E.
  - eapply perform_keeps_image; [exact IH|exact E].
Qed.

Lemma GET_VALID_FPS_in_range n :
  QCCTV_MIN_FPS <= QCCTV_MAX_FPS ->
  QCCTV_MIN_FPS <= QCCTV_GET_VALID_FPS n <= QCCTV_MAX_FPS.
Proof.
  intros Hrange. unfold QCCTV_GET_VALID_FPS.
  destruct (Z.ltb_spec n QCCTV_MIN_FPS); [lia|].
  destruct (Z.ltb_spec QCCTV_MAX_FPS n); lia.
Qed.

Lemma setFPS_stores n cam a cam' log :
  setFPS n cam = Done a cam' log -> m_fps cam' = QCCTV_GET_VALID_FPS n.
Proof.
  rewrite setFPS_result.
  destruct (Z.eqb_spec (m_fps cam) (QCCTV_GET_VALID_FPS n));
    intros E; inversion E; subst; [assumption|reflexivity].
Qed.

Section Range.

Hypothesis range : QCCTV_MIN_FPS <= QCCTV_MAX_FPS.

Lemma setFPS_keeps_fps n : preserves fps_in_range (setFPS n).
Proof.
  intros cam a cam' log _ E. unfold fps_in_range.
  rewrite (setFPS_stores _ _ _ _ _ E). apply GET_VALID_FPS_in_range, range.
Qed.

(** The frame rate stays in the valid range under every call. *)
Lemma perform_keeps_fps call : preserves fps_in_range (perform call).
Proof.
  destruct call; cbn [perform];
    try apply setFPS_keeps_fps;
    repeat progress unfold_members;
    try (preserve_with ltac:(intros c Hc; exact Hc);
         solve [apply setFPS_keeps_fps
               |apply accept_pending_keeps; intros v c Hc; exact Hc]).
  apply preserves_modify. intros c Hc.
  destruct (m_camera c); exact Hc.
Qed.

Lemma constructor_sets_fps fps0 status0 light0 grabber cam log :
  constructor (default_initialised fps0 status0 light0 grabber)
  = Done tt cam log ->
  fps_in_range cam.
Proof.
  unfold constructor. intros E.
  apply bind_inv in E. destruct E as (? & cam0 & ? & ? & _ & E & _).
  apply bind_inv in E. destruct E as (? & cam1 & ? & l2 & E1 & E & _).
  assert (Hfps : fps_in_range cam1).
  { unfold fps_in_range. rewrite (setFPS_stores _ _ _ _ _ E1).
    apply GET_VALID_FPS_in_range, range. }
  assert (Hrest : forall m : Cam unit,
            preserves fps_in_range m ->
            m cam1 = Done tt cam l2 -> fps_in_range cam)
    by (intros m Hm Em; exact (Hm _ _ _ _ Hfps Em)).
  eapply Hrest; cycle 1; [exact E|].
  repeat progress unfold_members.
  preserve_with ltac:(intros c Hc; exact Hc).
Qed.

(** The frame-rate invariant: the stored rate is always in the valid range. *)
Lemma reachable_fps_in_range cam : reachable cam -> fps_in_range cam.
Proof.
  induction 1 as [? ? ? ? cam log E|call cam cam' log _ IH E].
  - eapply constructor_sets_fps, E.
  - eapply perform_keeps_fps; [exact IH|exact E].
Qed.

End Range.

End Invariants.

(** ** Frame rate *)

Lemma sample_camera_reachable : reachable sample_camera.
Proof.
  eapply reachable_call with (call := call_setName [67; 97; 109; 49]);
    [eapply reachable_call with (call := call_setFPS 15);
       [eapply reachable_constructed
          with (fps0 := 0) (status0 := 0) (light0 := 0) (grabber := (false, 1))|]|];
    reflexivity.
Qed.

Lemma sample_live_reachable : reachable sample_live.
Proof.
  eapply reachable_call with (call := call_acceptConnection);
    [eapply reachable_call with (call := station_connects (sample_station 2));
       [eapply reachable_call
          with (call := station_connects (sample_station 1));
          [eapply reachable_call
             with (call := call_setCamera (Some sample_device));
             [exact sample_camera_reachable|]|]|]|];
    reflexivity.
Qed.

Lemma sample_waiting_reachable : reachable sample_waiting.
Proof.
  eapply reachable_call with (call := call_generateDataStream);
    [exact sample_live_reachable|reflexivity].
Qed.

(** C5: whatever integer [setFPS] is given, the frame rate stored afterwards
    lies in the valid range: an input below the range stores the lower
    bound, an input above it the upper bound, an input inside it is stored
    as it is.  The stored rate is therefore in range in every state the
    camera object reaches. *)
Theorem setFPS_clamps `{QCCTV_h} (n : Z) (cam : QCCTV_LocalCamera) :
  QCCTV_MIN_FPS <= QCCTV_MAX_FPS ->
  exists cam' log,
    setFPS n cam = Done tt cam' log
    /\ QCCTV_MIN_FPS <= m_fps cam' <= QCCTV_MAX_FPS
    /\ (n < QCCTV_MIN_FPS -> m_fps cam' = QCCTV_MIN_FPS)
    /\ (QCCTV_MAX_FPS < n -> m_fps cam' = QCCTV_MAX_FPS)
    /\ (QCCTV_MIN_FPS <= n <= QCCTV_MAX_FPS -> m_fps cam' = n)
    /\ (reachable cam -> fps_in_range cam /\ reachable cam').
Proof.
  intros Hrange.
  destruct (setFPS n cam) as [[] cam' log|] eqn:E;
    [|rewrite setFPS_result in E; destruct (m_fps cam =? _); discriminate].
  exists cam', log. split; [reflexivity|].
  rewrite (setFPS_stores _ _ _ _ _ E).
  split; [apply GET_VALID_FPS_in_range, Hrange|].
  unfold QCCTV_GET_VALID_FPS.
  split; [|split; [|split]].
  - intros Hlow. destruct (Z.ltb_spec n QCCTV_MIN_FPS); [reflexivity|lia].
  - intros Hhigh. destruct (Z.ltb_spec n QCCTV_MIN_FPS); [lia|].
    destruct (Z.ltb_spec QCCTV_MAX_FPS n); [reflexivity|lia].
  - intros Hin. destruct (Z.ltb_spec n QCCTV_MIN_FPS); [lia|].
    destruct (Z.ltb_spec QCCTV_MAX_FPS n); [lia|reflexivity].
  - intros Hreach. split.
    + apply reachable_fps_in_range; assumption.
    + apply reachable_call
        with (call := call_setFPS n) (cam := cam) (log := log);
        assumption.
Qed.

Lemma setFPS_clamps_witness :
  @QCCTV_MIN_FPS sample_header <= @QCCTV_MAX_FPS sample_header
  /\ exists cam' log,
       setFPS 100 sample_camera = Done tt cam' log /\ m_fps cam' = 60.
Proof.
  split; [discriminate|].
  destruct (setFPS_clamps 100 sample_camera)
    as (cam' & log & Hrun & _ & _ & Hhigh & _).
  - discriminate.
  - exists cam', log. split; [exact Hrun|]. apply Hhigh. reflexivity.
Defined.

(** ** Status flags *)

Lemma land_lor_same s f : Z.land (Z.lor s f) f = f.
Proof.
  apply Z.bits_inj'. intros n _.
  rewrite Z.land_spec, Z.lor_spec.
  destruct (Z.testbit s n), (Z.testbit f n); reflexivity.
Qed.

Lemma land_pow2_testbit s k :
  0 <= k -> Z.land s (2 ^ k) <> 0 -> Z.testbit s k = true.
Proof.
  intros Hk Hne. destruct (Z.testbit s k) eqn:Hbit; [reflexivity|].
  exfalso. apply Hne. apply Z.bits_inj'. intros n Hn.
  rewrite Z.land_spec, Z.pow2_bits_eqb, Z.bits_0 by exact Hk.
  destruct (Z.eqb_spec k n) as [->|_];
    [rewrite Hbit; reflexivity|apply andb_false_r].
Qed.

Lemma land_lxor_pow2 s k :
  0 <= k -> Z.land s (2 ^ k) <> 0 -> Z.land (Z.lxor s (2 ^ k)) (2 ^ k) = 0.
Proof.
  intros Hk Hne. apply Z.bits_inj'. intros n Hn.
  rewrite Z.land_spec, Z.lxor_spec, Z.pow2_bits_eqb, Z.bits_0 by exact Hk.
  destruct (Z.eqb_spec k n) as [<-|_]; [|apply andb_false_r].
  rewrite (land_pow2_testbit s k Hk Hne). reflexivity.
Qed.

(** C6: adding a flag twice leaves what adding it once leaves, and the
    second call signals nothing: the pair never signals two status changes,
    it signals one when the flag was absent and none when it was already
    set.  Removing an absent flag changes nothing and signals nothing, and
    removing a flag twice is the same as removing it once. *)
Theorem statusFlag_idempotent `{QCCTV_h} (f : Z) (cam : QCCTV_LocalCamera) :
  f <> 0 ->
  exists cam1 log1,
    addStatusFlag f cam = Done tt cam1 log1
    /\ addStatusFlag f cam1 = Done tt cam1 []
    /\ (addStatusFlag f ;; addStatusFlag f) cam = Done tt cam1 log1
    /\ (emitted cameraStatusChanged log1 <= 1)%nat
    /\ (Z.land (m_cameraStatus cam) f = 0 ->
        log1 = [emit cameraStatusChanged]
        /\ emitted cameraStatusChanged log1 = 1%nat)
    /\ (Z.land (m_cameraStatus cam) f <> 0 -> cam1 = cam /\ log1 = [])
    /\ (Z.land (m_cameraStatus cam) f = 0 ->
        removeStatusFlag f cam = Done tt cam [])
    /\ (forall k, 0 <= k -> f = 2 ^ k ->
        exists cam2 log2,
          removeStatusFlag f cam = Done tt cam2 log2
          /\ removeStatusFlag f cam2 = Done tt cam2 []
          /\ (removeStatusFlag f ;; removeStatusFlag f) cam
             = Done tt cam2 log2).
Proof.
  intros Hf.
  assert (Hadd : exists cam1 log1,
             addStatusFlag f cam = Done tt cam1 log1
             /\ Z.land (m_cameraStatus cam1) f <> 0
             /\ (Z.land (m_cameraStatus cam) f = 0 ->
                 log1 = [emit cameraStatusChanged])
             /\ (Z.land (m_cameraStatus cam) f <> 0 -> cam1 = cam /\ log1 = [])).
  { rewrite addStatusFlag_result.
    destruct (Z.eqb_spec (Z.land (m_cameraStatus cam) f) 0) as [Habs|Hset].
    - eexists _, _. split; [reflexivity|].
      cbn [m_cameraStatus with_cameraStatus]. rewrite land_lor_same.
      repeat split; auto; contradiction.
    - exists cam, []. repeat split; auto; contradiction. }
  destruct Hadd as (cam1 & log1 & E1 & Hset1 & Habsent & Hpresent).
  assert (E2 : addStatusFlag f cam1 = Done tt cam1 []).
  { rewrite addStatusFlag_result.
    destruct (Z.eqb_spec (Z.land (m_cameraStatus cam1) f) 0);
      [contradiction|reflexivity]. }
  exists cam1, log1.
  split; [exact E1|]. split; [exact E2|].
  split; [rewrite (bind_Done _ _ _ _ _ _ E1), E2, app_nil_r; reflexivity|].
  split.
  { destruct (Z.eq_dec (Z.land (m_cameraStatus cam) f) 0) as [Habs|Hset].
    - rewrite (Habsent Habs). apply le_n.
    - destruct (Hpresent Hset) as [_ ->]. apply le_S, le_n. }
  split; [intros Habs; rewrite (Habsent Habs); split; reflexivity|].
  split; [exact Hpresent|].
  split.
  - intros Habs. rewrite removeStatusFlag_result, Habs. reflexivity.
  - intros k Hk ->.
    assert (Hrem : exists cam2 log2,
               removeStatusFlag (2 ^ k) cam = Done tt cam2 log2
               /\ Z.land (m_cameraStatus cam2) (2 ^ k) = 0).
    { rewrite removeStatusFlag_result.
      destruct (Z.eqb_spec (Z.land (m_cameraStatus cam) (2 ^ k)) 0)
        as [Habs|Hset].
      - exists cam, []. split; [reflexivity|exact Habs].
      - eexists _, _. split; [reflexivity|].
        cbn [m_cameraStatus with_cameraStatus].
        apply land_lxor_pow2; assumption. }
    destruct Hrem as (cam2 & log2 & E3 & Hgone).
    assert (E4 : removeStatusFlag (2 ^ k) cam2 = Done tt cam2 [])
      by (rewrite removeStatusFlag_result, Hgone; reflexivity).
    exists cam2, log2. split; [exact E3|]. split; [exact E4|].
    rewrite (bind_Done _ _ _ _ _ _ E3), E4, app_nil_r. reflexivity.
Qed.

Lemma statusFlag_idempotent_witness :
  8 <> 0
  /\ (addStatusFlag 8 ;; addStatusFlag 8) sample_camera
     = Done tt (with_cameraStatus 8 sample_camera) [emit cameraStatusChanged]
  /\ removeStatusFlag 8 sample_camera = Done tt sample_camera [].
Proof.
  split; [discriminate|].
  destruct (statusFlag_idempotent 8 sample_camera)
    as (cam1 & log1 & Hadd & _ & Htwice & _ & Hone & _ & Hremove & _).
  - discriminate.
  - split; [|apply Hremove; reflexivity].
    rewrite Htwice. destruct (Hone eq_refl) as [-> _].
    inversion Hadd. reflexivity.
Defined.

(** ** Broadcast *)

Lemma write_all_result `{QCCTV_h} socks data cam :
  write_all socks data cam
  = Done tt cam (map (fun s => socket_write (socket_id s) data) socks).
Proof.
  induction socks as [|s rest IH]; cbn [write_all map]; [reflexivity|].
  unfold bind, tell. rewrite IH. reflexivity.
Qed.

Lemma sendCameraData_result `{QCCTV_h} cam :
  sendCameraData cam
  = Done tt (with_dataStream [] cam)
      (map (fun s => socket_write (socket_id s) (m_dataStream cam))
         (m_sockets cam)).
Proof.
  unfold sendCameraData. run_cam. rewrite write_all_result.
  rewrite !app_nil_r. reflexivity.
Qed.

(** C7: broadcasting writes the buffered frame once to every connected
    station, in the order of the connection list, and leaves the outbound
    buffer empty, also when no station is connected; the next frame
    encoding then produces a frame again. *)
Theorem sendCameraData_clears `{QCCTV_h} (cam : QCCTV_LocalCamera) :
  exists cam',
    sendCameraData cam
    = Done tt cam'
        (map (fun s => socket_write (socket_id s) (m_dataStream cam))
           (m_sockets cam))
    /\ cam' = with_dataStream [] cam
    /\ m_dataStream cam' = []
    /\ (forall s, In s (m_sockets cam) ->
        In (socket_write (socket_id s) (m_dataStream cam))
           (map (fun s => socket_write (socket_id s) (m_dataStream cam))
              (m_sockets cam)))
    /\ (m_sockets cam = [] -> sendCameraData cam = Done tt cam' [])
    /\ exists cam'',
         generateDataStream cam' = Done tt cam'' []
         /\ isEmpty (m_dataStream cam'') = false.
Proof.
  exists (with_dataStream [] cam).
  split; [apply sendCameraData_result|].
  split; [reflexivity|]. split; [reflexivity|].
  split.
  { intros s Hs.
    exact (in_map (fun s => socket_write (socket_id s) (m_dataStream cam))
             _ _ Hs). }
  split; [intros Hnone; rewrite sendCameraData_result, Hnone; reflexivity|].
  eexists. split; [apply generateDataStream_empty; reflexivity|reflexivity].
Qed.

(** ** The scheduler tick *)

Lemma updateStatus_returns `{QCCTV_h} cam :
  exists cam1 log1,
    updateStatus cam = Done tt cam1 log1
    /\ cam1 = with_cameraStatus (m_cameraStatus cam1) cam
    /\ forall e, In e log1 -> e = emit cameraStatusChanged.
Proof.
  assert (Hflag : forall (add : bool) f c,
            exists c1 l1,
              (if add then addStatusFlag f else removeStatusFlag f) c
              = Done tt c1 l1
              /\ c1 = with_cameraStatus (m_cameraStatus c1) c
              /\ forall e, In e l1 -> e = emit cameraStatusChanged).
  { intros add f c.
    destruct add; [rewrite addStatusFlag_result|rewrite removeStatusFlag_result];
      destruct (Z.land (m_cameraStatus c) f =? 0);
      eexists _, _; (split; [reflexivity|]);
      (split; [cbn [m_cameraStatus with_cameraStatus];
               try reflexivity; symmetry; apply with_cameraStatus_same|]);
      intros e He; cbn [In] in He; intuition congruence. }
  assert (Hboth : forall (video light : bool),
            exists c2 l2,
              ((if video then addStatusFlag QCCTV_CAMSTATUS_VIDEO_FAILURE
                else removeStatusFlag QCCTV_CAMSTATUS_VIDEO_FAILURE) ;;
               (if light then addStatusFlag QCCTV_CAMSTATUS_LIGHT_FAILURE
                else removeStatusFlag QCCTV_CAMSTATUS_LIGHT_FAILURE)) cam
              = Done tt c2 l2
              /\ c2 = with_cameraStatus (m_cameraStatus c2) cam
              /\ forall e, In e l2 -> e = emit cameraStatusChanged).
  { intros video light.
    destruct (Hflag video QCCTV_CAMSTATUS_VIDEO_FAILURE cam)
      as (c1 & l1 & E1 & Hc1 & Hl1).
    destruct (Hflag light QCCTV_CAMSTATUS_LIGHT_FAILURE c1)
      as (c2 & l2 & E2 & Hc2 & Hl2).
    exists c2, (l1 ++ l2).
    split; [rewrite (bind_Done _ _ _ _ _ _ E1), E2; reflexivity|].
    split; [rewrite Hc2 at 1; rewrite Hc1; reflexivity|].
    intros e He. apply in_app_or in He. destruct He; auto. }
  assert (Hsame : forall (video : bool) c1 l1,
            (if video then addStatusFlag QCCTV_CAMSTATUS_VIDEO_FAILURE
             else removeStatusFlag QCCTV_CAMSTATUS_VIDEO_FAILURE) cam
            = Done tt c1 l1 ->
            m_camera c1 = m_camera cam).
  { intros video c1 l1 E1.
    destruct (Hflag video QCCTV_CAMSTATUS_VIDEO_FAILURE cam)
      as (c1' & l1' & E1' & Hc1 & _).
    rewrite E1 in E1'. inversion E1'; subst c1' l1'.
    rewrite Hc1. reflexivity. }
  unfold updateStatus, flashlightAvailable.
  unfold bind, gets, ret.
  destruct (m_camera cam) as [c|] eqn:Hcam.
  - remember (negb (QCamera_Status_eqb (camera_status c) ActiveStatus))
      as video eqn:Hvideo. clear Hvideo.
    destruct (Hboth video (negb (isFlashReady c))) as (c2 & l2 & E & Hc2 & Hl2).
    exists c2, l2. split; [|split; assumption].
    rewrite <- E. unfold bind.
    destruct ((if video then addStatusFlag QCCTV_CAMSTATUS_VIDEO_FAILURE
               else removeStatusFlag QCCTV_CAMSTATUS_VIDEO_FAILURE) cam)
      as [[] c1 l1|] eqn:E1; [|reflexivity].
    rewrite (Hsame _ _ _ E1).
    destruct ((if negb (isFlashReady c)
               then addStatusFlag QCCTV_CAMSTATUS_LIGHT_FAILURE
               else removeStatusFlag QCCTV_CAMSTATUS_LIGHT_FAILURE) c1);
      cbn [app]; rewrite ?app_nil_r; reflexivity.
  - destruct (Hboth true true) as (c2 & l2 & E & Hc2 & Hl2).
    exists c2, l2. split; [|split; assumption].
    rewrite <- E. unfold bind.
    destruct (addStatusFlag QCCTV_CAMSTATUS_VIDEO_FAILURE cam)
      as [[] c1 l1|] eqn:E1; [|reflexivity].
    rewrite (Hsame true _ _ E1). cbn [negb].
    destruct (addStatusFlag QCCTV_CAMSTATUS_LIGHT_FAILURE c1);
      cbn [app]; rewrite ?app_nil_r; reflexivity.
Qed.

Lemma generateDataStream_returns `{QCCTV_h} cam :
  exists cam', generateDataStream cam = Done tt cam' []
               /\ cam' = with_dataStream (m_dataStream cam') cam.
Proof.
  destruct (isEmpty (m_dataStream cam)) eqn:Hbuf.
  - eexists. split; [apply generateDataStream_empty, Hbuf|reflexivity].
  - exists cam. split; [apply generateDataStream_pending, Hbuf|].
    symmetry. apply with_dataStream_same.
Qed.

Lemma setFPS_no_timer `{QCCTV_h} n cam cam' log e :
  setFPS n cam = Done tt cam' log -> In e log -> is_singleShot e = false.
Proof.
  rewrite setFPS_result. destruct (m_fps cam =? QCCTV_GET_VALID_FPS n);
    intros E He; inversion E; subst; cbn [In] in He;
    [contradiction|destruct He as [<-|[]]; reflexivity].
Qed.

(** ** Change notifications *)

(** The claim C9 as it is written fails for [setCameraStatus]: it signals a
    status change also when the status it stores is the one already there. *)
Lemma setCameraStatus_counterexample :
  ~ (forall (cam cam' : @QCCTV_LocalCamera sample_header) (status : Z)
            (log : list Event),
       setCameraStatus status cam = Done tt cam' log ->
       (In (emit cameraStatusChanged) log
        <-> m_cameraStatus cam' <> m_cameraStatus cam)).
Proof.
  intros Hclaim.
  destruct (Hclaim sample_camera sample_camera 0 [emit cameraStatusChanged]
              eq_refl) as [Hchanged _].
  apply Hchanged; [left|]; reflexivity.
Qed.

(** C9, amended: [setName] and [setFPS] signal [cameraNameChanged] and
    [fpsChanged] exactly when the value they store differs from the one
    stored before, and signal nothing otherwise; [setCameraStatus] stores
    the given status and signals [cameraStatusChanged] on every call. *)
Theorem change_notifications `{QCCTV_h} (name : QString) (n status : Z)
    (cam : QCCTV_LocalCamera) :
  (exists cam' log,
     setName name cam = Done tt cam' log
     /\ m_name cam' = name
     /\ (m_name cam' <> m_name cam -> log = [emit cameraNameChanged])
     /\ (m_name cam' = m_name cam -> log = [] /\ cam' = cam))
  /\ (exists cam' log,
        setFPS n cam = Done tt cam' log
        /\ m_fps cam' = QCCTV_GET_VALID_FPS n
        /\ (m_fps cam' <> m_fps cam -> log = [emit fpsChanged])
        /\ (m_fps cam' = m_fps cam -> log = [] /\ cam' = cam))
  /\ (exists cam',
        setCameraStatus status cam = Done tt cam' [emit cameraStatusChanged]
        /\ m_cameraStatus cam' = status).
Proof.
  split; [|split].
  - rewrite setName_result.
    destruct (QString_eqb (m_name cam) name) eqn:Hname.
    + apply QString_eqb_eq in Hname.
      exists cam, []. repeat split; auto; contradiction.
    + assert (Hne : m_name cam <> name)
        by (intros Heq; apply QString_eqb_eq in Heq; congruence).
      eexists _, _. split; [reflexivity|]. cbn [m_name with_name].
      repeat split; auto; congruence.
  - rewrite setFPS_result.
    destruct (Z.eqb_spec (m_fps cam) (QCCTV_GET_VALID_FPS n)) as [Heq|Hne].
    + exists cam, []. repeat split; auto; contradiction.
    + eexists _, _. split; [reflexivity|]. cbn [m_fps with_fps].
      repeat split; auto; congruence.
  - eexists. split; [apply setCameraStatus_result|reflexivity].
Qed.

(** ** The current image *)

(** The constructor returns, whatever the indeterminate members hold, and
    leaves the placeholder image as the current image. *)
Lemma constructor_returns `{QCCTV_h} fps0 status0 light0 grabber :
  exists cam log,
    constructor (default_initialised fps0 status0 light0 grabber)
    = Done tt cam log
    /\ m_image cam = default_image
    /\ isNull default_image = false.
Proof.
  unfold constructor.
  set (c0 := default_initialised fps0 status0 light0 grabber).
  assert (E0 : modify (with_camera None None) c0 = Done tt c0 [])
    by reflexivity.
  rewrite (bind_Done _ _ _ _ _ _ E0).
  destruct (setFPS QCCTV_DEFAULT_FPS c0) as [[] c1 l1|] eqn:E1;
    [|rewrite setFPS_result in E1; destruct (m_fps c0 =? _); discriminate].
  rewrite (bind_Done _ _ _ _ _ _ E1).
  destruct (setName (QString_of "Unknown Camera"%string) c1)
    as [[] c2 l2|] eqn:E2;
    [|rewrite setName_result in E2; destruct (QString_eqb _ _); discriminate].
  rewrite (bind_Done _ _ _ _ _ _ E2).
  rewrite (bind_Done _ _ _ _ _ _ (setCameraStatus_result _ c2)).
  destruct (setFlashlightStatus QCCTV_FLASHLIGHT_OFF
              (with_cameraStatus QCCTV_CAMSTATUS_DEFAULT c2))
    as [[] c4 l4|] eqn:E4;
    [|rewrite setFlashlightStatus_result in E4;
      destruct (_ =? _); discriminate].
  rewrite (bind_Done _ _ _ _ _ _ E4).
  run_cam. eexists _, _. repeat split.
Qed.

(** C10: a null image handed to [changeImage] is ignored: the camera object
    is unchanged and [imageChanged] is not signalled.  The constructor
    installs the non-null placeholder, so in every state the camera object
    reaches, [currentImage()] is a non-null image, and no call changes
    that. *)
Theorem currentImage_never_null `{QCCTV_h} (image : QImage)
    (cam : QCCTV_LocalCamera) :
  (isNull image = true -> changeImage image cam = Done tt cam [])
  /\ (forall fps0 status0 light0 grabber,
      exists cam0 log0,
        constructor (default_initialised fps0 status0 light0 grabber)
        = Done tt cam0 log0
        /\ isNull (m_image cam0) = false)
  /\ (reachable cam ->
      currentImage cam = Done (m_image cam) cam []
      /\ isNull (m_image cam) = false
      /\ forall call cam' log,
           perform call cam = Done tt cam' log ->
           isNull (m_image cam') = false).
Proof.
  split; [|split].
  - intros Hnull. unfold changeImage. rewrite Hnull. reflexivity.
  - intros fps0 status0 light0 grabber.
    destruct (constructor_returns fps0 status0 light0 grabber)
      as (cam0 & log0 & E & Himg & Hplaceholder).
    exists cam0, log0. split; [exact E|]. rewrite Himg. exact Hplaceholder.
  - intros Hreach. split; [reflexivity|].
    pose proof (reachable_has_image cam Hreach) as Himg.
    split; [exact Himg|].
    intros call cam' log E.
    exact (perform_keeps_image call cam tt cam' log Himg E).
Qed.

Lemma currentImage_never_null_witness :
  isNull QImage_null = true
  /\ reachable sample_camera
  /\ changeImage QImage_null sample_camera = Done tt sample_camera []
  /\ isNull (m_image sample_camera) = false.
Proof.
  split; [reflexivity|]. split; [exact sample_camera_reachable|].
  destruct (currentImage_never_null QImage_null sample_camera)
    as (Hignored & _ & Hinv).
  split; [apply Hignored; reflexivity|].
  apply Hinv. exact sample_camera_reachable.
Defined.

(** ** Calls return *)

Section Returns.

Context `{QCCTV_h}.

Lemma returns_ret {A} (a : A) : returns (ret a).
Proof. intros cam. eexists _, _, _. reflexivity. Qed.

Lemma returns_gets {A} (f : QCCTV_LocalCamera -> A) : returns (gets f).
Proof. intros cam. eexists _, _, _. reflexivity. Qed.

Lemma returns_tell e : returns (tell e).
Proof. intros cam. eexists _, _, _. reflexivity. Qed.

Lemma returns_modify f : returns (modify f).
Proof. intros cam. eexists _, _, _. reflexivity. Qed.

Lemma returns_bind {A B} (m : Cam A) (k : A -> Cam B) :
  returns m -> (forall a, returns (k a)) -> returns (bind m k).
Proof.
  intros Hm Hk cam.
  destruct (Hm cam) as (a & cam1 & l1 & E1).
  destruct (Hk a cam1) as (b & cam2 & l2 & E2).
  exists b, cam2, (l1 ++ l2).
  rewrite (bind_Done _ _ _ _ _ _ E1), E2. reflexivity.
Qed.

Lemma returns_when b m : returns m -> returns (when b m).
Proof. intros Hm. destruct b; [exact Hm|apply returns_ret]. Qed.

Lemma returns_write_all socks data : returns (write_all socks data).
Proof.
  intros cam. eexists _, _, _. apply write_all_result.
Qed.

Lemma returns_accept_pending pending : returns (accept_pending pending).
Proof.
  induction pending as [|s rest IH]; cbn [accept_pending].
  - apply returns_ret.
  - repeat (apply returns_bind; [|intros ?]);
      try apply returns_modify; try apply returns_tell; exact IH.
Qed.

End Returns.

Ltac returns_auto :=
  repeat
    match goal with
    | |- returns (bind _ _) => apply returns_bind; [|intros ?]
    | |- returns (ret _) => apply returns_ret
    | |- returns (gets _) => apply returns_gets
    | |- returns (tell _) => apply returns_tell
    | |- returns (when _ _) => apply returns_when
    | |- returns (modify _) => apply returns_modify
    | |- returns (write_all _ _) => apply returns_write_all
    | |- returns (accept_pending _) => apply returns_accept_pending
    | |- returns (match ?x with _ => _ end) => destruct x
    end.

(** Every call returns, except that a tick with a zero frame rate divides
    by zero. *)
Lemma perform_returns `{QCCTV_h} call cam :
  m_fps cam <> 0 -> exists cam' log, perform call cam = Done tt cam' log.
Proof.
  intros Hfps.
  assert (Hunit : forall m : Cam unit,
            returns m -> exists cam' log, m cam = Done tt cam' log).
  { intros m Hm. destruct (Hm cam) as ([] & cam' & log & E).
    exists cam', log. exact E. }
  destruct call; cbn [perform];
    try (apply Hunit; repeat progress (unfold_members; unfold setFPS);
         returns_auto; fail).
  unfold update.
  destruct (updateStatus_returns cam) as (cam1 & log1 & E1 & Hc1 & _).
  destruct (generateDataStream_returns cam1) as (cam2 & E2 & Hc2).
  rewrite (bind_Done _ _ _ _ _ _ E1).
  rewrite (bind_Done _ _ _ _ _ _ E2).
  rewrite (bind_Done _ _ _ _ _ _ (sendCameraData_result cam2)).
  unfold fps, bind, gets, tell.
  replace (m_fps (with_dataStream [] cam2)) with (m_fps cam)
    by (rewrite Hc2, Hc1; reflexivity).
  destruct (Z.eqb_spec (m_fps cam) 0); [contradiction|].
  eexists _, _. reflexivity.
Qed.

(** With a valid range that starts above zero, a camera object never runs
    into the undefined division: every call returns in every state it
    reaches. *)
Lemma reachable_calls_return `{QCCTV_h} call cam :
  0 < QCCTV_MIN_FPS <= QCCTV_MAX_FPS ->
  reachable cam ->
  exists cam' log, perform call cam = Done tt cam' log /\ reachable cam'.
Proof.
  intros [Hpos Hrange] Hreach.
  pose proof (reachable_fps_in_range Hrange cam Hreach) as Hfps.
  unfold fps_in_range in Hfps.
  destruct (perform_returns call cam) as (cam' & log & E); [lia|].
  exists cam', log. split; [exact E|].
  exact (reachable_call call cam cam' log Hreach E).
Qed.

(** * Further properties of the code *)

(** ** Connections *)

Lemma accept_pending_result `{QCCTV_h} pending : forall cam,
  pendingConnections (m_server cam) = pending ->
  accept_pending pending cam
  = Done tt
      (with_sockets (m_sockets cam ++ pending)
         (with_server {| pendingConnections := [] |} cam))
      (map (fun s => socket_configure (socket_id s)) pending).
Proof.
  induction pending as [|s rest IH]; intros cam Hpending.
  - cbn [accept_pending map]. unfold ret. rewrite app_nil_r.
    destruct cam as [? ? ? ? ? ? ? ? ? [srv] ?]. cbn in Hpending.
    subst srv. reflexivity.
  - cbn [accept_pending map]. run_cam.
    rewrite IH by reflexivity.
    cbn [m_sockets with_sockets with_server]. rewrite <- app_assoc.
    reflexivity.
Qed.

Lemma acceptConnection_result `{QCCTV_h} cam :
  acceptConnection cam
  = Done tt
      (with_sockets (m_sockets cam ++ pendingConnections (m_server cam))
         (with_server {| pendingConnections := [] |} cam))
      (map (fun s => socket_configure (socket_id s))
         (pendingConnections (m_server cam))).
Proof.
  unfold acceptConnection. run_cam.
  rewrite accept_pending_result by reflexivity. reflexivity.
Qed.

(** X1: [acceptConnection] takes every pending connection, not only the
    first: all of them are appended to the connection list in arrival
    order, each is configured once, none stays pending, and nothing else in
    the object changes.  A second call right after does nothing. *)
Theorem acceptConnection_drains `{QCCTV_h} (cam : QCCTV_LocalCamera) :
  exists cam',
    acceptConnection cam
    = Done tt cam'
        (map (fun s => socket_configure (socket_id s))
           (pendingConnections (m_server cam)))
    /\ m_sockets cam' = m_sockets cam ++ pendingConnections (m_server cam)
    /\ pendingConnections (m_server cam') = []
    /\ cam' = with_sockets (m_sockets cam')
                (with_server {| pendingConnections := [] |} cam)
    /\ acceptConnection cam' = Done tt cam' [].
Proof.
  eexists. split; [apply acceptConnection_result|].
  cbn [m_sockets m_server with_sockets with_server pendingConnections].
  repeat (split; [reflexivity|]).
  rewrite acceptConnection_result.
  cbn [m_sockets m_server with_sockets with_server pendingConnections map].
  rewrite app_nil_r. reflexivity.
Qed.

Lemma remove_socket_absent id socks :
  ~ In id (map socket_id socks) -> remove_socket id socks = socks.
Proof.
  induction socks as [|s rest IH]; cbn [remove_socket map In];
    [reflexivity|].
  intros Habsent. destruct (Nat.eqb_spec (socket_id s) id) as [Heq|_].
  - exfalso. apply Habsent. left. exact Heq.
  - rewrite IH; [reflexivity|]. intros Hin. apply Habsent. right. exact Hin.
Qed.

Lemma remove_socket_filter id socks :
  NoDup (map socket_id socks) ->
  remove_socket id socks
  = filter (fun s => negb (Nat.eqb (socket_id s) id)) socks.
Proof.
  induction socks as [|s rest IH]; cbn [remove_socket map filter];
    [reflexivity|].
  intros Hdistinct. inversion Hdistinct as [|? ? Hfresh Hrest]; subst.
  destruct (Nat.eqb_spec (socket_id s) id) as [Heq|_]; cbn [negb].
  - rewrite <- IH by exact Hrest. symmetry. apply remove_socket_absent.
    rewrite <- Heq. exact Hfresh.
  - rewrite IH by exact Hrest. reflexivity.
Qed.

Lemma remove_socket_length id socks :
  In id (map socket_id socks) ->
  S (length (remove_socket id socks)) = length socks.
Proof.
  induction socks as [|s rest IH]; cbn [remove_socket map In length];
    [contradiction|].
  intros Hin. destruct (Nat.eqb_spec (socket_id s) id) as [_|Hne];
    [reflexivity|].
  cbn [length]. f_equal. apply IH. destruct Hin; [contradiction|assumption].
Qed.

Lemma filter_ids_NoDup id socks :
  NoDup (map socket_id socks) ->
  NoDup (map socket_id
           (filter (fun s => negb (Nat.eqb (socket_id s) id)) socks))
  /\ ~ In id (map socket_id
                (filter (fun s => negb (Nat.eqb (socket_id s) id)) socks)).
Proof.
  induction socks as [|s rest IH]; cbn [map filter].
  - intros _. split; [constructor|intros []].
  - intros Hdistinct. inversion Hdistinct as [|? ? Hfresh Hrest]; subst.
    destruct (IH Hrest) as [IHd IHa].
    destruct (Nat.eqb_spec (socket_id s) id) as [Heq|Hne]; cbn [negb map].
    + split; assumption.
    + split.
      * constructor; [|exact IHd]. intros Hin. apply Hfresh.
        apply in_map_iff in Hin. destruct Hin as (s' & Hid & Hs').
        apply filter_In in Hs'. apply in_map_iff. exists s'.
        split; [exact Hid|apply Hs'].
      * intros [Hhead|Htail]; [contradiction|apply IHa, Htail].
Qed.

(** X2: when the connected sockets are distinct, [onDisconnected] closes
    the sender and takes exactly that socket out of the connection list:
    the others stay, in their order, and the list gets one shorter; a
    sender that is not in the list leaves the object as it is. *)
Theorem onDisconnected_removes `{QCCTV_h} (socket : QTcpSocket)
    (cam : QCCTV_LocalCamera) :
  distinct_sockets cam ->
  exists cam',
    onDisconnected (Some socket) cam
    = Done tt cam' [socket_close (socket_id socket)]
    /\ m_sockets cam'
       = filter (fun s => negb (Nat.eqb (socket_id s) (socket_id socket)))
           (m_sockets cam)
    /\ cam' = with_sockets (m_sockets cam') cam
    /\ ~ In (socket_id socket) (map socket_id (m_sockets cam'))
    /\ distinct_sockets cam'
    /\ (In (socket_id socket) (map socket_id (m_sockets cam)) ->
        S (length (m_sockets cam')) = length (m_sockets cam))
    /\ (~ In (socket_id socket) (map socket_id (m_sockets cam)) ->
        cam' = cam).
Proof.
  intros Hdistinct. unfold distinct_sockets in *.
  eexists. split; [reflexivity|].
  cbn [m_sockets with_sockets].
  pose proof (remove_socket_filter (socket_id socket) _ Hdistinct) as Hfilter.
  split; [exact Hfilter|]. split; [reflexivity|].
  destruct (filter_ids_NoDup (socket_id socket) _ Hdistinct) as [Hd Ha].
  rewrite Hfilter.
  split; [exact Ha|]. split; [exact Hd|].
  rewrite <- Hfilter. split.
  - apply remove_socket_length.
  - intros Habsent. rewrite (remove_socket_absent _ _ Habsent).
    destruct cam; reflexivity.
Qed.

Lemma onDisconnected_removes_witness :
  distinct_sockets sample_streaming
  /\ exists cam',
       onDisconnected (Some (sample_station 1)) sample_streaming
       = Done tt cam' [socket_close 1]
       /\ m_sockets cam' = [sample_station 2].
Proof.
  assert (Hdistinct : distinct_sockets sample_streaming).
  { unfold distinct_sockets. cbn.
    repeat constructor; cbn; intuition discriminate. }
  split; [exact Hdistinct|].
  destruct (onDisconnected_removes (sample_station 1) sample_streaming
              Hdistinct) as (cam' & Hrun & Hsocks & _).
  exists cam'. split; [exact Hrun|]. rewrite Hsocks. reflexivity.
Defined.

Lemma remove_socket_last s socks :
  ~ In (socket_id s) (map socket_id socks) ->
  remove_socket (socket_id s) (socks ++ [s]) = socks.
Proof.
  induction socks as [|s' rest IH]; cbn [remove_socket map In app].
  - intros _. rewrite Nat.eqb_refl. reflexivity.
  - intros Hfresh. destruct (Nat.eqb_spec (socket_id s') (socket_id s)).
    + exfalso. apply Hfresh. left. assumption.
    + rewrite IH; [reflexivity|]. intros Hin. apply Hfresh. right. exact Hin.
Qed.

(** X3: a station that connects, is accepted and then disconnects leaves no
    trace: when nothing else was pending and its socket was not in the
    connection list before, the camera object is exactly what it was, and
    the socket was configured once and closed once. *)
Theorem connect_accept_disconnect `{QCCTV_h} (s : QTcpSocket)
    (cam : QCCTV_LocalCamera) :
  pendingConnections (m_server cam) = [] ->
  ~ In (socket_id s) (map socket_id (m_sockets cam)) ->
  (perform (station_connects s) ;; acceptConnection ;;
   onDisconnected (Some s)) cam
  = Done tt cam [socket_configure (socket_id s); socket_close (socket_id s)].
Proof.
  intros Hnone Hfresh.
  assert (E1 : perform (station_connects s) cam
               = Done tt (with_server {| pendingConnections := [s] |} cam) []).
  { cbn [perform]. unfold modify. rewrite Hnone. reflexivity. }
  rewrite (bind_Done _ _ _ _ _ _ E1).
  rewrite (bind_Done _ _ _ _ _ _ (acceptConnection_result _)).
  unfold onDisconnected. run_cam.
  cbn [pendingConnections map].
  rewrite (remove_socket_last _ _ Hfresh).
  destruct cam as [? ? ? ? ? ? ? ? ? [srv] ?]. cbn in Hnone. subst srv.
  reflexivity.
Qed.

Lemma connect_accept_disconnect_witness :
  pendingConnections (m_server sample_streaming) = []
  /\ ~ In (socket_id (sample_station 5))
         (map socket_id (m_sockets sample_streaming))
  /\ (perform (station_connects (sample_station 5)) ;; acceptConnection ;;
      onDisconnected (Some (sample_station 5))) sample_streaming
     = Done tt sample_streaming [socket_configure 5; socket_close 5].
Proof.
  assert (Hfresh : ~ In (socket_id (sample_station 5))
                     (map socket_id (m_sockets sample_streaming)))
    by (cbn; intuition discriminate).
  split; [reflexivity|]. split; [exact Hfresh|].
  apply (connect_accept_disconnect (sample_station 5) sample_streaming);
    [reflexivity|exact Hfresh].
Defined.

(** ** The tick, in full *)

Lemma written_sockets_app l1 l2 :
  written_sockets (l1 ++ l2) = written_sockets l1 ++ written_sockets l2.
Proof.
  induction l1 as [|e rest IH]; [reflexivity|].
  destruct e; cbn [app written_sockets]; rewrite IH; reflexivity.
Qed.

Lemma written_sockets_writes data socks :
  written_sockets (map (fun s => socket_write (socket_id s) data) socks)
  = map socket_id socks.
Proof.
  induction socks as [|s rest IH]; cbn [map written_sockets];
    [reflexivity|rewrite IH; reflexivity].
Qed.

Lemma written_sockets_signals log :
  (forall e, In e log -> e = emit cameraStatusChanged) ->
  written_sockets log = [].
Proof.
  induction log as [|e rest IH]; [reflexivity|].
  intros Hall. rewrite (Hall e (or_introl eq_refl)). cbn [written_sockets].
  apply IH. intros e' He'. apply Hall. right. exact He'.
Qed.

(** What a tick does, spelled out: the status flags are refreshed, the
    frame on the wire is the waiting one or else the frame of the refreshed
    object, and the object ends with an empty buffer. *)
Lemma update_result `{QCCTV_h} cam :
  m_fps cam <> 0 ->
  exists status log1 data,
    updateStatus cam = Done tt (with_cameraStatus status cam) log1
    /\ (forall e, In e log1 -> e = emit cameraStatusChanged)
    /\ data = (if isEmpty (m_dataStream cam)
               then frame (m_name cam) (m_fps cam) (m_flashlightStatus cam)
                      status (m_image cam)
               else m_dataStream cam)
    /\ update cam
       = Done tt (with_dataStream [] (with_cameraStatus status cam))
           (log1
            ++ map (fun s => socket_write (socket_id s) data) (m_sockets cam)
            ++ [singleShot (Z.quot 1000 (m_fps cam)) PreciseTimer
                  slot_update]).
Proof.
  intros Hfps.
  destruct (updateStatus_returns cam) as (cam1 & log1 & E1 & Hc1 & Hl1).
  set (status := m_cameraStatus cam1) in *.
  exists status, log1. eexists.
  rewrite <- Hc1. split; [exact E1|]. split; [exact Hl1|].
  split; [reflexivity|].
  unfold update. rewrite (bind_Done _ _ _ _ _ _ E1).
  assert (Hbuf : m_dataStream cam1 = m_dataStream cam)
    by (rewrite Hc1; reflexivity).
  destruct (isEmpty (m_dataStream cam)) eqn:Hempty.
  - rewrite (bind_Done _ _ _ _ _ _
               (generateDataStream_empty cam1 ltac:(rewrite Hbuf; exact Hempty))).
    rewrite (bind_Done _ _ _ _ _ _ (sendCameraData_result _)).
    unfold fps, bind, gets, tell.
    cbn [m_fps m_sockets m_dataStream with_dataStream app].
    rewrite Hc1. cbn [m_fps m_sockets m_name m_flashlightStatus m_cameraStatus
                      m_image with_cameraStatus with_dataStream].
    destruct (Z.eqb_spec (m_fps cam) 0); [contradiction|].
    reflexivity.
  - rewrite (bind_Done _ _ _ _ _ _
               (generateDataStream_pending cam1
                  ltac:(rewrite Hbuf; exact Hempty))).
    rewrite (bind_Done _ _ _ _ _ _ (sendCameraData_result _)).
    unfold fps, bind, gets, tell.
    cbn [m_fps m_sockets m_dataStream with_dataStream app].
    rewrite Hc1. cbn [m_fps m_sockets m_dataStream with_cameraStatus
                      with_dataStream].
    destruct (Z.eqb_spec (m_fps cam) 0); [contradiction|].
    reflexivity.
Qed.

(** X4: a tick changes nothing in the camera object but the status flags
    and the outbound buffer, which it always leaves empty, and it writes to
    every connected station exactly once, in list order.  With a frame
    waiting, that frame is what goes out, unchanged. *)
Theorem update_touches_status_only `{QCCTV_h} (cam : QCCTV_LocalCamera) :
  m_fps cam <> 0 ->
  exists cam' log,
    update cam = Done tt cam' log
    /\ cam' = with_dataStream [] (with_cameraStatus (m_cameraStatus cam') cam)
    /\ m_dataStream cam' = []
    /\ written_sockets log = map socket_id (m_sockets cam)
    /\ (isEmpty (m_dataStream cam) = false ->
        forall s, In s (m_sockets cam) ->
        In (socket_write (socket_id s) (m_dataStream cam)) log).
Proof.
  intros Hfps.
  destruct (update_result cam Hfps)
    as (status & log1 & data & _ & Hl1 & Hdata & Hrun).
  eexists _, _. split; [exact Hrun|].
  cbn [m_cameraStatus m_dataStream with_dataStream with_cameraStatus].
  split; [reflexivity|]. split; [reflexivity|]. split.
  - rewrite !written_sockets_app, written_sockets_writes.
    rewrite (written_sockets_signals _ Hl1). cbn [written_sockets app].
    apply app_nil_r.
  - intros Hwaiting s Hs. rewrite Hwaiting in Hdata. subst data.
    apply in_or_app. right. apply in_or_app. left.
    exact (in_map (fun s => socket_write (socket_id s) (m_dataStream cam))
             _ _ Hs).
Qed.

Lemma update_touches_status_only_witness :
  m_fps sample_streaming <> 0
  /\ exists cam' log,
       update sample_streaming = Done tt cam' log
       /\ m_dataStream cam' = []
       /\ written_sockets log = [1%nat; 2%nat].
Proof.
  split; [discriminate|].
  destruct (update_touches_status_only sample_streaming)
    as (cam' & log & Hrun & _ & Hbuf & Hwritten & _); [discriminate|].
  exists cam', log. split; [exact Hrun|]. split; [exact Hbuf|exact Hwritten].
Defined.

(** X5: backpressure never holds a frame from one tick to the next: a tick
    leaves the buffer empty, so the tick after it always encodes anew, and
    what it writes is the frame of the object as it is then (name, frame
    rate, light status and image as stored, status flags as just
    refreshed). *)
Theorem update_twice_encodes_anew `{QCCTV_h} (cam : QCCTV_LocalCamera) :
  m_fps cam <> 0 ->
  exists cam1 log1 status log2,
    update cam = Done tt cam1 log1
    /\ update cam1
       = Done tt (with_dataStream [] (with_cameraStatus status cam1))
           (log2
            ++ map (fun s =>
                      socket_write (socket_id s)
                        (frame (m_name cam) (m_fps cam)
                           (m_flashlightStatus cam) status (m_image cam)))
                 (m_sockets cam)
            ++ [singleShot (Z.quot 1000 (m_fps cam)) PreciseTimer
                  slot_update])
    /\ (forall e, In e log2 -> e = emit cameraStatusChanged).
Proof.
  intros Hfps.
  destruct (update_result cam Hfps)
    as (status1 & l1 & data1 & _ & _ & _ & Hrun1).
  set (cam1 := with_dataStream [] (with_cameraStatus status1 cam)) in *.
  destruct (update_result cam1 Hfps)
    as (status & log2 & data & _ & Hl2 & Hdata & Hrun2).
  eexists cam1, _, status, log2.
  split; [exact Hrun1|]. split; [|exact Hl2].
  rewrite Hrun2. subst data. reflexivity.
Qed.

Lemma update_twice_encodes_anew_witness :
  m_fps sample_streaming <> 0
  /\ exists cam1 log1 cam2 log2,
       update sample_streaming = Done tt cam1 log1
       /\ update cam1 = Done tt cam2 log2
       /\ In (socket_write 1
                (frame (m_name sample_streaming) 15 0 0 default_image))
            log2.
Proof.
  split; [discriminate|].
  destruct (update_twice_encodes_anew sample_streaming)
    as (cam1 & log1 & status & log2 & Hrun1 & Hrun2 & _); [discriminate|].
  exists cam1, log1. eexists _, _.
  split; [exact Hrun1|]. split; [exact Hrun2|].
  inversion Hrun1; subst cam1 log1.
  assert (Hstatus : status = 0).
  { vm_compute in Hrun2. inversion Hrun2. reflexivity. }
  subst status. apply in_or_app. right. left. reflexivity.
Defined.

(** X6: once a station has disconnected, a tick does not write to its
    socket any more, while every other station is still written to, once
    each and in the same order (the connected sockets being distinct). *)
Theorem no_write_after_disconnect `{QCCTV_h} (socket : QTcpSocket)
    (cam : QCCTV_LocalCamera) :
  distinct_sockets cam ->
  m_fps cam <> 0 ->
  exists cam' log,
    (onDisconnected (Some socket) ;; update) cam = Done tt cam' log
    /\ ~ In (socket_id socket) (written_sockets log)
    /\ written_sockets log
       = map socket_id
           (filter (fun s => negb (Nat.eqb (socket_id s) (socket_id socket)))
              (m_sockets cam)).
Proof.
  intros Hdistinct Hfps. unfold distinct_sockets in Hdistinct.
  set (cam1 := with_sockets
                 (remove_socket (socket_id socket) (m_sockets cam)) cam).
  assert (E1 : onDisconnected (Some socket) cam
               = Done tt cam1 [socket_close (socket_id socket)])
    by reflexivity.
  destruct (update_result cam1 Hfps)
    as (status & log1 & data & _ & Hl1 & _ & Hrun).
  eexists _, _. split.
  { rewrite (bind_Done _ _ _ _ _ _ E1), Hrun. reflexivity. }
  cbn [app written_sockets].
  rewrite !written_sockets_app, written_sockets_writes.
  rewrite (written_sockets_signals _ Hl1). cbn [written_sockets app].
  rewrite app_nil_r. subst cam1. cbn [m_sockets with_sockets].
  rewrite (remove_socket_filter _ _ Hdistinct).
  split; [|reflexivity].
  apply (filter_ids_NoDup _ _ Hdistinct).
Qed.

Lemma no_write_after_disconnect_witness :
  distinct_sockets sample_streaming
  /\ m_fps sample_streaming <> 0
  /\ exists cam' log,
       (onDisconnected (Some (sample_station 1)) ;; update) sample_streaming
       = Done tt cam' log
       /\ written_sockets log = [2%nat].
Proof.
  assert (Hdistinct : distinct_sockets sample_streaming).
  { unfold distinct_sockets. cbn.
    repeat constructor; cbn; intuition discriminate. }
  split; [exact Hdistinct|]. split; [discriminate|].
  destruct (no_write_after_disconnect (sample_station 1) sample_streaming
              Hdistinct) as (cam' & log & Hrun & _ & Hwritten);
    [discriminate|].
  exists cam', log. split; [exact Hrun|]. rewrite Hwritten. reflexivity.
Defined.

(** X7: a tick fails exactly when the stored frame rate is zero: then the
    status refresh, the encoding and the broadcast still run, and the
    period [1000 / fps()] is a division by zero; with any other rate the
    tick returns. *)
Theorem update_undefined_iff `{QCCTV_h} (cam : QCCTV_LocalCamera) :
  update cam = Undefined <-> m_fps cam = 0.
Proof.
  split.
  - intros Hund. destruct (Z.eq_dec (m_fps cam) 0) as [Hzero|Hfps];
      [exact Hzero|].
    destruct (update_result cam Hfps) as (? & ? & ? & _ & _ & _ & Hrun).
    rewrite Hrun in Hund. discriminate Hund.
  - intros Hzero. unfold update.
    destruct (updateStatus_returns cam) as (cam1 & log1 & E1 & Hc1 & _).
    destruct (generateDataStream_returns cam1) as (cam2 & E2 & Hc2).
    rewrite (bind_Done _ _ _ _ _ _ E1).
    rewrite (bind_Done _ _ _ _ _ _ E2).
    rewrite (bind_Done _ _ _ _ _ _ (sendCameraData_result cam2)).
    unfold fps, bind, gets, undefined.
    replace (m_fps (with_dataStream [] cam2)) with (m_fps cam)
      by (rewrite Hc2, Hc1; reflexivity).
    rewrite Hzero. reflexivity.
Qed.

(** ** Status flags, bit by bit *)

Lemma land_zero_bits s f n :
  Z.land s f = 0 -> Z.testbit f n = true -> Z.testbit s n = false.
Proof.
  intros Hland Hf.
  assert (Hbit : Z.testbit (Z.land s f) n = false)
    by (rewrite Hland; apply Z.bits_0).
  rewrite Z.land_spec, Hf, andb_true_r in Hbit. exact Hbit.
Qed.

Lemma lxor_lor_absent s f : Z.land s f = 0 -> Z.lxor (Z.lor s f) f = s.
Proof.
  intros Hland. apply Z.bits_inj'. intros n _.
  rewrite Z.lxor_spec, Z.lor_spec.
  destruct (Z.testbit f n) eqn:Hf.
  - rewrite (land_zero_bits s f n Hland Hf). reflexivity.
  - rewrite orb_false_r, xorb_false_r. reflexivity.
Qed.

(** X8: adding a flag that is absent and removing it again gives back the
    status there was, with one change signal for each of the two steps. *)
Theorem add_remove_roundtrip `{QCCTV_h} (f : Z) (cam : QCCTV_LocalCamera) :
  f <> 0 ->
  Z.land (m_cameraStatus cam) f = 0 ->
  (addStatusFlag f ;; removeStatusFlag f) cam
  = Done tt cam [emit cameraStatusChanged; emit cameraStatusChanged].
Proof.
  intros Hf Habsent.
  assert (E1 : addStatusFlag f cam
               = Done tt
                   (with_cameraStatus (Z.lor (m_cameraStatus cam) f) cam)
                   [emit cameraStatusChanged])
    by (rewrite addStatusFlag_result, Habsent; reflexivity).
  rewrite (bind_Done _ _ _ _ _ _ E1).
  rewrite removeStatusFlag_result.
  cbn [m_cameraStatus with_cameraStatus].
  rewrite land_lor_same.
  destruct (Z.eqb_spec f 0); [contradiction|].
  rewrite (lxor_lor_absent _ _ Habsent).
  cbn [app]. f_equal. destruct cam; reflexivity.
Qed.

Lemma add_remove_roundtrip_witness :
  8 <> 0
  /\ Z.land (m_cameraStatus sample_camera) 8 = 0
  /\ (addStatusFlag 8 ;; removeStatusFlag 8) sample_camera
     = Done tt sample_camera
         [emit cameraStatusChanged; emit cameraStatusChanged].
Proof.
  split; [discriminate|]. split; [reflexivity|].
  apply (add_remove_roundtrip 8 sample_camera); [discriminate|reflexivity].
Defined.

(** X9: adding or removing a flag never touches a status bit outside the
    given mask, and changes no other member of the object. *)
Theorem status_flag_leaves_other_bits `{QCCTV_h} (f : Z)
    (cam cam' : QCCTV_LocalCamera) (log : list Event) (n : Z) :
  addStatusFlag f cam = Done tt cam' log
  \/ removeStatusFlag f cam = Done tt cam' log ->
  Z.testbit f n = false ->
  Z.testbit (m_cameraStatus cam') n = Z.testbit (m_cameraStatus cam) n
  /\ cam' = with_cameraStatus (m_cameraStatus cam') cam.
Proof.
  intros [E|E] Hout;
    [rewrite addStatusFlag_result in E|rewrite removeStatusFlag_result in E];
    destruct (Z.land (m_cameraStatus cam) f =? 0);
    inversion E; subst; cbn [m_cameraStatus with_cameraStatus];
    rewrite ?Z.lor_spec, ?Z.lxor_spec, ?Hout, ?orb_false_r, ?xorb_false_r;
    (split; [reflexivity|]);
    try reflexivity; symmetry; apply with_cameraStatus_same.
Qed.

Lemma status_flag_leaves_other_bits_witness :
  addStatusFlag 16 (with_cameraStatus 8 sample_camera)
  = Done tt (with_cameraStatus 24 sample_camera) [emit cameraStatusChanged]
  /\ Z.testbit 16 3 = false
  /\ Z.testbit (m_cameraStatus (with_cameraStatus 24 sample_camera)) 3
     = Z.testbit (m_cameraStatus (with_cameraStatus 8 sample_camera)) 3.
Proof.
  split; [reflexivity|]. split; [reflexivity|].
  apply (status_flag_leaves_other_bits 16
           (with_cameraStatus 8 sample_camera)
           (with_cameraStatus 24 sample_camera)
           [emit cameraStatusChanged] 3);
    [left|]; reflexivity.
Defined.

(** X10: [removeStatusFlag] clears with exclusive or, so with a mask of
    several bits of which at least one is set it flips every bit of the
    mask: the bits that were set are cleared, and the bits that were clear
    come out set. *)
Theorem removeStatusFlag_flips_mask `{QCCTV_h} (f : Z)
    (cam : QCCTV_LocalCamera) :
  Z.land (m_cameraStatus cam) f <> 0 ->
  exists cam',
    removeStatusFlag f cam = Done tt cam' [emit cameraStatusChanged]
    /\ forall n, Z.testbit f n = true ->
         Z.testbit (m_cameraStatus cam') n
         = negb (Z.testbit (m_cameraStatus cam) n).
Proof.
  intros Hset. eexists. split.
  - rewrite removeStatusFlag_result.
    destruct (Z.eqb_spec (Z.land (m_cameraStatus cam) f) 0);
      [contradiction|reflexivity].
  - intros n Hn. cbn [m_cameraStatus with_cameraStatus].
    rewrite Z.lxor_spec, Hn. apply xorb_true_r.
Qed.

Lemma removeStatusFlag_flips_mask_witness :
  Z.land (m_cameraStatus (with_cameraStatus 8 sample_camera)) 24 <> 0
  /\ exists cam',
       removeStatusFlag 24 (with_cameraStatus 8 sample_camera)
       = Done tt cam' [emit cameraStatusChanged]
       /\ Z.testbit (m_cameraStatus cam') 3 = false
       /\ Z.testbit (m_cameraStatus cam') 4 = true.
Proof.
  split; [discriminate|].
  destruct (removeStatusFlag_flips_mask 24
              (with_cameraStatus 8 sample_camera))
    as (cam' & Hrun & Hflip); [discriminate|].
  exists cam'. split; [exact Hrun|].
  split; [apply (Hflip 3)|apply (Hflip 4)]; reflexivity.
Defined.

(** ** Health checks *)

(** The two probes of [updateStatus]. *)
Lemma updateStatus_as_flags `{QCCTV_h} cam :
  updateStatus cam
  = ((if match m_camera cam with
          | Some c => negb (QCamera_Status_eqb (camera_status c) ActiveStatus)
          | None => true
          end
      then addStatusFlag QCCTV_CAMSTATUS_VIDEO_FAILURE
      else removeStatusFlag QCCTV_CAMSTATUS_VIDEO_FAILURE) ;;
     (if match m_camera cam with
         | Some c => negb (isFlashReady c)
         | None => true
         end
      then addStatusFlag QCCTV_CAMSTATUS_LIGHT_FAILURE
      else removeStatusFlag QCCTV_CAMSTATUS_LIGHT_FAILURE)) cam.
Proof.
  assert (Hsame : forall (b : bool) f c1 l1,
            (if b then addStatusFlag f else removeStatusFlag f) cam
            = Done tt c1 l1 ->
            m_camera c1 = m_camera cam).
  { intros b f c1 l1 E.
    destruct b;
      [rewrite addStatusFlag_result in E|rewrite removeStatusFlag_result in E];
      destruct (Z.land (m_cameraStatus cam) f =? 0);
      inversion E; reflexivity. }
  unfold updateStatus, flashlightAvailable. unfold bind, gets, ret.
  destruct (m_camera cam) as [c|] eqn:Hcam.
  - destruct ((if negb (QCamera_Status_eqb (camera_status c) ActiveStatus)
               then addStatusFlag QCCTV_CAMSTATUS_VIDEO_FAILURE
               else removeStatusFlag QCCTV_CAMSTATUS_VIDEO_FAILURE) cam)
      as [[] c1 l1|] eqn:E1; [|reflexivity].
    rewrite (Hsame _ _ _ _ E1).
    destruct ((if negb (isFlashReady c)
               then addStatusFlag QCCTV_CAMSTATUS_LIGHT_FAILURE
               else removeStatusFlag QCCTV_CAMSTATUS_LIGHT_FAILURE) c1);
      cbn [app]; rewrite ?app_nil_r; reflexivity.
  - destruct (addStatusFlag QCCTV_CAMSTATUS_VIDEO_FAILURE cam)
      as [[] c1 l1|] eqn:E1; [|reflexivity].
    rewrite (Hsame true _ _ _ E1). cbn [negb].
    destruct (addStatusFlag QCCTV_CAMSTATUS_LIGHT_FAILURE c1);
      cbn [app]; rewrite ?app_nil_r; reflexivity.
Qed.

(** Setting or clearing one bit: the bit ends as asked, the others stay,
    and asking again changes and signals nothing. *)
Lemma flag_bit_result `{QCCTV_h} (set : bool) k cam :
  0 <= k ->
  exists cam' log,
    (if set then addStatusFlag (2 ^ k) else removeStatusFlag (2 ^ k)) cam
    = Done tt cam' log
    /\ cam' = with_cameraStatus (m_cameraStatus cam') cam
    /\ Z.testbit (m_cameraStatus cam') k = set
    /\ (forall n, n <> k ->
        Z.testbit (m_cameraStatus cam') n = Z.testbit (m_cameraStatus cam) n)
    /\ (Z.testbit (m_cameraStatus cam) k = set -> cam' = cam /\ log = []).
Proof.
  intros Hk.
  assert (Hland : Z.land (m_cameraStatus cam) (2 ^ k) = 0
                  <-> Z.testbit (m_cameraStatus cam) k = false).
  { split.
    - intros Hz. apply (land_zero_bits _ _ _ Hz).
      rewrite Z.pow2_bits_eqb by exact Hk. apply Z.eqb_refl.
    - intros Hbit. destruct (Z.eq_dec (Z.land (m_cameraStatus cam) (2 ^ k)) 0)
        as [Hz|Hnz]; [exact Hz|].
      rewrite (land_pow2_testbit _ _ Hk Hnz) in Hbit. discriminate. }
  assert (Hother : forall n, n <> k -> Z.testbit (2 ^ k) n = false).
  { intros n Hn. rewrite Z.pow2_bits_eqb by exact Hk.
    apply Z.eqb_neq. congruence. }
  assert (Hself : Z.testbit (2 ^ k) k = true)
    by (rewrite Z.pow2_bits_eqb by exact Hk; apply Z.eqb_refl).
  destruct set;
    [rewrite addStatusFlag_result|rewrite removeStatusFlag_result];
    destruct (Z.eqb_spec (Z.land (m_cameraStatus cam) (2 ^ k)) 0)
      as [Hz|Hnz];
    eexists _, _; (split; [reflexivity|]);
    cbn [m_cameraStatus with_cameraStatus].
  - split; [reflexivity|]. split; [|split].
    + rewrite Z.lor_spec, Hself. apply orb_true_r.
    + intros n Hn. rewrite Z.lor_spec, (Hother n Hn). apply orb_false_r.
    + intros Hbit. apply Hland in Hz. congruence.
  - split; [symmetry; apply with_cameraStatus_same|]. split; [|split].
    + apply land_pow2_testbit; assumption.
    + reflexivity.
    + auto.
  - split; [symmetry; apply with_cameraStatus_same|]. split; [|split].
    + apply Hland, Hz.
    + reflexivity.
    + auto.
  - split; [reflexivity|]. split; [|split].
    + rewrite Z.lxor_spec, Hself, (land_pow2_testbit _ _ Hk Hnz). reflexivity.
    + intros n Hn. rewrite Z.lxor_spec, (Hother n Hn). apply xorb_false_r.
    + intros Hbit. rewrite (land_pow2_testbit _ _ Hk Hnz) in Hbit.
      discriminate.
Qed.

(** X11: when the two failure flags are distinct single bits, the status
    refresh makes each of them say what its probe found: the video-failure
    bit is set exactly when no camera is set or the camera is not active,
    the light-failure bit exactly when the flashlight is not available.
    No other status bit and no other member changes, and a second refresh
    with the same device readings changes and signals nothing. *)
Theorem updateStatus_reflects_health `{QCCTV_h} (kv kl : Z)
    (cam : QCCTV_LocalCamera) :
  0 <= kv -> 0 <= kl -> kv <> kl ->
  QCCTV_CAMSTATUS_VIDEO_FAILURE = 2 ^ kv ->
  QCCTV_CAMSTATUS_LIGHT_FAILURE = 2 ^ kl ->
  exists cam' log,
    updateStatus cam = Done tt cam' log
    /\ cam' = with_cameraStatus (m_cameraStatus cam') cam
    /\ Z.testbit (m_cameraStatus cam') kv
       = match m_camera cam with
         | Some c => negb (QCamera_Status_eqb (camera_status c) ActiveStatus)
         | None => true
         end
    /\ Z.testbit (m_cameraStatus cam') kl
       = match m_camera cam with
         | Some c => negb (isFlashReady c)
         | None => true
         end
    /\ (forall n, n <> kv -> n <> kl ->
        Z.testbit (m_cameraStatus cam') n = Z.testbit (m_cameraStatus cam) n)
    /\ updateStatus cam' = Done tt cam' [].
Proof.
  intros Hkv Hkl Hdiff Hvideo Hlight.
  set (video := match m_camera cam with
                | Some c =>
                    negb (QCamera_Status_eqb (camera_status c) ActiveStatus)
                | None => true
                end).
  set (light := match m_camera cam with
                | Some c => negb (isFlashReady c)
                | None => true
                end).
  destruct (flag_bit_result video kv cam Hkv)
    as (cam1 & log1 & E1 & Hc1 & Hv1 & Hrest1 & _).
  destruct (flag_bit_result light kl cam1 Hkl)
    as (cam2 & log2 & E2 & Hc2 & Hl2 & Hrest2 & _).
  assert (Hv2 : Z.testbit (m_cameraStatus cam2) kv = video)
    by (rewrite (Hrest2 kv Hdiff); exact Hv1).
  assert (Hcam2 : cam2 = with_cameraStatus (m_cameraStatus cam2) cam)
    by (rewrite Hc2 at 1; rewrite Hc1; reflexivity).
  exists cam2, (log1 ++ log2).
  split.
  { rewrite updateStatus_as_flags, Hvideo, Hlight. fold video light.
    rewrite (bind_Done _ _ _ _ _ _ E1), E2. reflexivity. }
  split; [exact Hcam2|]. split; [exact Hv2|]. split; [exact Hl2|].
  split.
  { intros n Hnv Hnl. rewrite (Hrest2 n Hnl). apply Hrest1, Hnv. }
  assert (Hdev : m_camera cam2 = m_camera cam)
    by (rewrite Hcam2; reflexivity).
  rewrite updateStatus_as_flags, Hvideo, Hlight, Hdev. fold video light.
  destruct (flag_bit_result video kv cam2 Hkv)
    as (cam3 & log3 & E3 & _ & _ & _ & Hnop3).
  destruct (Hnop3 Hv2) as [-> ->].
  destruct (flag_bit_result light kl cam2 Hkl)
    as (cam4 & log4 & E4 & _ & _ & _ & Hnop4).
  destruct (Hnop4 Hl2) as [-> ->].
  rewrite (bind_Done _ _ _ _ _ _ E3), E4. reflexivity.
Qed.

Lemma updateStatus_reflects_health_witness :
  0 <= 3 /\ 0 <= 4 /\ 3 <> 4
  /\ @QCCTV_CAMSTATUS_VIDEO_FAILURE sample_header = 2 ^ 3
  /\ @QCCTV_CAMSTATUS_LIGHT_FAILURE sample_header = 2 ^ 4
  /\ exists cam' log,
       updateStatus sample_camera = Done tt cam' log
       /\ Z.testbit (m_cameraStatus cam') 3 = true
       /\ Z.testbit (m_cameraStatus cam') 4 = true
       /\ updateStatus cam' = Done tt cam' [].
Proof.
  split; [discriminate|]. split; [discriminate|]. split; [discriminate|].
  split; [reflexivity|]. split; [reflexivity|].
  destruct (updateStatus_reflects_health 3 4 sample_camera)
    as (cam' & log & Hrun & _ & Hvideo & Hlight & _ & Hagain);
    try reflexivity; try discriminate.
  exists cam', log. split; [exact Hrun|].
  split; [exact Hvideo|]. split; [exact Hlight|exact Hagain].
Defined.

(** ** Setters *)

(** X12: asking a setter for the value it has just stored does nothing:
    after [setFPS], [setName] or [setFlashlightStatus], the same call once
    more leaves the object as it is, signals nothing and sends nothing to
    the device. *)
Theorem setters_settle `{QCCTV_h} (n : Z) (name : QString) (status : Z)
    (cam cam' : QCCTV_LocalCamera) (log : list Event) :
  (setFPS n cam = Done tt cam' log -> setFPS n cam' = Done tt cam' [])
  /\ (setName name cam = Done tt cam' log ->
      setName name cam' = Done tt cam' [])
  /\ (setFlashlightStatus status cam = Done tt cam' log ->
      setFlashlightStatus status cam' = Done tt cam' []).
Proof.
  split; [|split]; intros E.
  - rewrite setFPS_result, (setFPS_stores _ _ _ _ _ E), Z.eqb_refl.
    reflexivity.
  - assert (Hname : m_name cam' = name).
    { rewrite setName_result in E.
      destruct (QString_eqb (m_name cam) name) eqn:Heq;
        inversion E; subst; [apply QString_eqb_eq, Heq|reflexivity]. }
    rewrite setName_result.
    rewrite (proj2 (QString_eqb_eq (m_name cam') name) Hname). reflexivity.
  - assert (Hlight : m_flashlightStatus cam' = status).
    { rewrite setFlashlightStatus_result in E.
      destruct (Z.eqb_spec (m_flashlightStatus cam) status) as [Heq|_];
        inversion E; subst cam'; [exact Heq|reflexivity]. }
    rewrite setFlashlightStatus_result, Hlight, Z.eqb_refl. reflexivity.
Qed.

Lemma setters_settle_witness :
  setFPS 100 sample_streaming
  = Done tt (with_fps 60 sample_streaming) [emit fpsChanged]
  /\ setFPS 100 (with_fps 60 sample_streaming)
     = Done tt (with_fps 60 sample_streaming) [].
Proof.
  split; [reflexivity|].
  apply (proj1 (setters_settle 100 [] 0 sample_streaming
                  (with_fps 60 sample_streaming) [emit fpsChanged])).
  reflexivity.
Defined.

(** ** Construction *)

Lemma constructor_result `{QCCTV_h} fps0 status0 light0 grabber :
  constructor (default_initialised fps0 status0 light0 grabber)
  = Done tt
      {| m_fps := QCCTV_GET_VALID_FPS QCCTV_DEFAULT_FPS;
         m_cameraStatus := QCCTV_CAMSTATUS_DEFAULT;
         m_flashlightStatus := QCCTV_FLASHLIGHT_OFF;
         m_name := QString_of "Unknown Camera"%string;
         m_image := default_image;
         m_dataStream := [];
         m_camera := None; m_capture := None; m_sockets := [];
         m_server := {| pendingConnections := [] |};
         m_frameGrabber := grabber |}
      ((if fps0 =? QCCTV_GET_VALID_FPS QCCTV_DEFAULT_FPS then []
        else [emit fpsChanged])
       ++ [emit cameraNameChanged; emit cameraStatusChanged;
           singleShot 1000 CoarseTimer slot_update;
           singleShot 1000 CoarseTimer slot_broadcastInfo]).
Proof.
  unfold constructor.
  set (c0 := default_initialised fps0 status0 light0 grabber).
  assert (E0 : modify (with_camera None None) c0 = Done tt c0 [])
    by reflexivity.
  rewrite (bind_Done _ _ _ _ _ _ E0).
  pose proof (setFPS_result QCCTV_DEFAULT_FPS c0) as E1.
  cbn [m_fps c0 default_initialised] in E1.
  assert (Hname : forall c,
            m_name c = [] ->
            setName (QString_of "Unknown Camera"%string) c
            = Done tt (with_name (QString_of "Unknown Camera"%string) c)
                [emit cameraNameChanged]).
  { intros c Hc. rewrite setName_result, Hc. reflexivity. }
  assert (Hlight : forall c,
            m_camera c = None ->
            setFlashlightStatus QCCTV_FLASHLIGHT_OFF c
            = Done tt (with_flashlightStatus QCCTV_FLASHLIGHT_OFF c) []).
  { intros c Hc. rewrite setFlashlightStatus_result, Hc.
    destruct (Z.eqb_spec (m_flashlightStatus c) QCCTV_FLASHLIGHT_OFF)
      as [Heq|_]; [|reflexivity].
    rewrite <- Heq, with_flashlightStatus_same. reflexivity. }
  destruct (Z.eqb_spec fps0 (QCCTV_GET_VALID_FPS QCCTV_DEFAULT_FPS))
    as [Heq|_];
    rewrite (bind_Done _ _ _ _ _ _ E1);
    cbv beta;
    match goal with
    | |- context [bind (setName _) _ ?c] =>
        rewrite (bind_Done _ _ _ _ _ _ (Hname c eq_refl))
    end;
    rewrite (bind_Done _ _ _ _ _ _ (setCameraStatus_result _ _));
    cbv beta;
    match goal with
    | |- context [bind (setFlashlightStatus _) _ ?c] =>
        rewrite (bind_Done _ _ _ _ _ _ (Hlight c eq_refl))
    end;
    run_cam; subst c0; unfold default_initialised;
    rewrite <- ?Heq; reflexivity.
Qed.

(** X13: the constructor reads [m_fps] and [m_flashlightStatus] before
    anything has written them, but the object it leaves does not depend on
    what they held: it is the same for any two sets of start values.  Only
    whether [fpsChanged] is signalled depends on them.  The name and status
    signals and the two one-second timers are always there, and
    [lightStatusChanged] is never signalled, as no camera is set yet. *)
Theorem constructor_ignores_start_values `{QCCTV_h}
    (fps0 status0 light0 fps1 status1 light1 : Z)
    (grabber : QCCTV_FrameGrabber) :
  exists cam log0 log1,
    constructor (default_initialised fps0 status0 light0 grabber)
    = Done tt cam log0
    /\ constructor (default_initialised fps1 status1 light1 grabber)
       = Done tt cam log1
    /\ m_fps cam = QCCTV_GET_VALID_FPS QCCTV_DEFAULT_FPS
    /\ m_flashlightStatus cam = QCCTV_FLASHLIGHT_OFF
    /\ m_cameraStatus cam = QCCTV_CAMSTATUS_DEFAULT
    /\ (m_dataStream cam = [] /\ m_sockets cam = [] /\ m_camera cam = None)
    /\ (emitted cameraNameChanged log0 = 1%nat
        /\ emitted cameraStatusChanged log0 = 1%nat
        /\ emitted lightStatusChanged log0 = 0%nat)
    /\ (emitted fpsChanged log0 = 0%nat
        <-> fps0 = QCCTV_GET_VALID_FPS QCCTV_DEFAULT_FPS)
    /\ exists signals,
         log0 = signals
                ++ [singleShot 1000 CoarseTimer slot_update;
                    singleShot 1000 CoarseTimer slot_broadcastInfo].
Proof.
  eexists _, _, _.
  split; [apply constructor_result|]. split; [apply constructor_result|].
  cbn [m_fps m_flashlightStatus m_cameraStatus m_dataStream m_sockets
       m_camera].
  do 3 (split; [reflexivity|]).
  split; [repeat split|].
  destruct (Z.eqb_spec fps0 (QCCTV_GET_VALID_FPS QCCTV_DEFAULT_FPS))
    as [Heq|Hne]; cbn [app emitted Signal_eqb].
  - split; [repeat split|].
    split; [split; [intros _; exact Heq|intros _; reflexivity]|].
    exists [emit cameraNameChanged; emit cameraStatusChanged]. reflexivity.
  - split; [repeat split|].
    split; [split; [discriminate|contradiction]|].
    exists [emit fpsChanged; emit cameraNameChanged;
            emit cameraStatusChanged]. reflexivity.
Qed.

(** ** The camera device *)

Ltac keep_camera :=
  intros ? Hc;
  first [exact Hc
        |cbv [capture_bound camera_set] in *;
         cbn [m_camera m_capture with_camera option_map camera_id] in *;
         first [reflexivity|discriminate]].

Lemma perform_keeps_camera_set `{QCCTV_h} call :
  preserves camera_set (perform call).
Proof.
  destruct call; cbn [perform];
    repeat progress (unfold_members; unfold setFPS);
    try (preserve_with keep_camera;
         solve [apply accept_pending_keeps; intros v c Hc; exact Hc]).
  (* the device's readings change *)
  apply preserves_modify. intros c Hc. unfold camera_set in *.
  destruct (m_camera c); [discriminate|contradiction].
Qed.

Lemma perform_keeps_capture_bound `{QCCTV_h} call :
  preserves capture_bound (perform call).
Proof.
  destruct call; cbn [perform];
    repeat progress (unfold_members; unfold setFPS);
    try (preserve_with keep_camera;
         solve [apply accept_pending_keeps; intros v c Hc; exact Hc]).
  apply preserves_modify. intros c Hc. unfold capture_bound in *.
  destruct (m_camera c) as [dev|] eqn:Hdev;
    [|rewrite Hdev; exact Hc].
  cbn [m_camera m_capture with_camera option_map camera_id] in *.
  exact Hc.
Qed.

Lemma reachable_capture_bound `{QCCTV_h} cam :
  reachable cam -> capture_bound cam.
Proof.
  induction 1 as [? ? ? ? cam log E|call cam cam' log _ IH E].
  - rewrite constructor_result in E. inversion E. reflexivity.
  - eapply perform_keeps_capture_bound; [exact IH|exact E].
Qed.

(** X14: no call ever detaches the camera: [setCamera] with a null pointer
    does nothing, and no other function writes [m_camera], so once a camera
    is set, one stays set after every call.  And in every state the object
    reaches, the capture object exists exactly when a camera is set. *)
Theorem camera_stays_set `{QCCTV_h} (cam : QCCTV_LocalCamera) :
  reachable cam ->
  setCamera None cam = Done tt cam []
  /\ m_capture cam = option_map camera_id (m_camera cam)
  /\ (m_camera cam <> None ->
      forall call cam' log,
        perform call cam = Done tt cam' log -> m_camera cam' <> None).
Proof.
  intros Hreach. split; [reflexivity|].
  split; [exact (reachable_capture_bound cam Hreach)|].
  intros Hset call cam' log E.
  exact (perform_keeps_camera_set call cam tt cam' log Hset E).
Qed.

Lemma camera_stays_set_witness :
  reachable sample_live
  /\ m_camera sample_live <> None
  /\ m_capture sample_live = Some 7%nat
  /\ setCamera None sample_live = Done tt sample_live []
  /\ forall call cam' log,
       perform call sample_live = Done tt cam' log -> m_camera cam' <> None.
Proof.
  split; [exact sample_live_reachable|]. split; [discriminate|].
  destruct (camera_stays_set sample_live sample_live_reachable)
    as (Hnull & Hbound & Hstays).
  split; [exact Hbound|]. split; [exact Hnull|].
  apply Hstays. discriminate.
Defined.

(** X15: in every state the object reaches, [takePhoto] triggers a capture
    exactly when a camera is set and reports that it is ready for capture;
    otherwise it does nothing, and it never changes the object. *)
Theorem takePhoto_when_ready `{QCCTV_h} (cam : QCCTV_LocalCamera) :
  reachable cam ->
  takePhoto cam
  = Done tt cam
      match m_camera cam with
      | Some c =>
          if isReadyForCapture c then [capture_capture (camera_id c)] else []
      | None => []
      end.
Proof.
  intros Hreach. pose proof (reachable_capture_bound cam Hreach) as Hbound.
  unfold capture_bound in Hbound. unfold takePhoto. run_cam.
  rewrite Hbound.
  destruct (m_camera cam) as [c|] eqn:Hcam; cbn [option_map]; run_cam;
    rewrite ?Hcam; [|reflexivity].
  destruct (isReadyForCapture c); reflexivity.
Qed.

Lemma takePhoto_when_ready_witness :
  reachable sample_live
  /\ takePhoto sample_live = Done tt sample_live [capture_capture 7].
Proof.
  split; [exact sample_live_reachable|].
  apply (takePhoto_when_ready sample_live sample_live_reachable).
Defined.

(** ** The image provider *)

(** X16: the image provider hands out the camera's current image, whatever
    id and sizes are asked for, and for a camera object in any state it
    reaches this image is never null; with no camera object it hands out
    its error image. *)
Theorem requestImage_current `{QCCTV_h} (cam : QCCTV_LocalCamera)
    (error : QImage) (id : QString) (size requestedSize : Z * Z) :
  reachable cam ->
  requestImage (Some cam) error id size requestedSize = m_image cam
  /\ isNull (requestImage (Some cam) error id size requestedSize) = false
  /\ requestImage None error id size requestedSize = error.
Proof.
  intros Hreach. split; [reflexivity|]. split; [|reflexivity].
  exact (reachable_has_image cam Hreach).
Qed.

Lemma requestImage_current_witness :
  reachable sample_camera
  /\ requestImage (Some sample_camera) QImage_null [] (640, 480) (0, 0)
     = default_image.
Proof.
  split; [exact sample_camera_reachable|].
  apply (requestImage_current sample_camera QImage_null [] (640, 480) (0, 0)
           sample_camera_reachable).
Defined.

(** ** What goes on the wire *)

Lemma generateDataStream_keeps_frame `{QCCTV_h} :
  preserves buffer_is_frame generateDataStream.
Proof.
  intros cam a cam' log Hbuf E.
  destruct (isEmpty (m_dataStream cam)) eqn:Hempty.
  - rewrite (generateDataStream_empty cam Hempty) in E.
    inversion E; subst. right.
    exists (m_name cam), (m_fps cam), (m_flashlightStatus cam),
      (m_cameraStatus cam), (m_image cam). reflexivity.
  - rewrite (generateDataStream_pending cam Hempty) in E.
    inversion E; subst. exact Hbuf.
Qed.

Ltac keep_frame :=
  intros ? Hc; first [exact Hc|left; reflexivity].

Lemma perform_keeps_frame `{QCCTV_h} call :
  preserves buffer_is_frame (perform call).
Proof.
  destruct call; cbn [perform];
    try apply generateDataStream_keeps_frame;
    try (unfold update;
         apply preserves_bind; [|intros ?];
         [|apply preserves_bind; [apply generateDataStream_keeps_frame|]];
         [|intros ?]);
    repeat progress
      (unfold takePhoto, focusCamera, turnOnFlashlight, turnOffFlashlight,
         setCamera, setName, setGrayscale, setShrinkRatio, updateStatus,
         sendCameraData, broadcastInfo, onDisconnected, acceptConnection,
         readCommandPacket, addStatusFlag, setCameraStatus,
         removeStatusFlag, setFlashlightStatus, changeImage, setFPS,
         fps, lightStatus, cameraName, currentImage, cameraStatus,
         flashlightOn, flashlightOff, flashlightAvailable, readyForCapture);
    try (preserve_with keep_frame;
         solve [apply accept_pending_keeps; intros v c Hc; exact Hc]).
  apply preserves_modify. intros c Hc. destruct (m_camera c); exact Hc.
Qed.

Lemma reachable_buffer_is_frame `{QCCTV_h} cam :
  reachable cam -> buffer_is_frame cam.
Proof.
  induction 1 as [? ? ? ? cam log E|call cam cam' log _ IH E].
  - rewrite constructor_result in E. inversion E. left. reflexivity.
  - eapply perform_keeps_frame; [exact IH|exact E].
Qed.

(** X17: in every state the object reaches, the outbound buffer holds
    nothing or exactly one complete frame, and whatever a tick writes to a
    station is one complete frame, from the name-length byte to the end
    marker: never an empty write, a partial frame or two frames at once. *)
Theorem update_writes_whole_frames `{QCCTV_h} (cam : QCCTV_LocalCamera) :
  reachable cam ->
  m_fps cam <> 0 ->
  buffer_is_frame cam
  /\ exists cam' log,
       update cam = Done tt cam' log
       /\ forall id data, In (socket_write id data) log ->
            exists name rate light status image,
              data = frame name rate light status image.
Proof.
  intros Hreach Hfps.
  pose proof (reachable_buffer_is_frame cam Hreach) as Hbuf.
  split; [exact Hbuf|].
  destruct (update_result cam Hfps)
    as (status & log1 & data & _ & Hl1 & Hdata & Hrun).
  eexists _, _. split; [exact Hrun|].
  intros id d Hin.
  apply in_app_or in Hin. destruct Hin as [Hin|Hin];
    [discriminate (Hl1 _ Hin)|].
  apply in_app_or in Hin. destruct Hin as [Hin|[Hin|[]]];
    [|discriminate Hin].
  apply in_map_iff in Hin. destruct Hin as (s & Hs & _).
  inversion Hs; subst d. clear Hs.
  destruct (m_dataStream cam) as [|b rest] eqn:Hstream; cbn [isEmpty] in Hdata.
  - subst data. eexists _, _, _, _, _. reflexivity.
  - destruct Hbuf as [Hnil|Hframe]; [rewrite Hstream in Hnil; discriminate|].
    subst data. rewrite <- Hstream. exact Hframe.
Qed.

Lemma update_writes_whole_frames_witness :
  reachable sample_waiting
  /\ m_fps sample_waiting <> 0
  /\ (exists name rate light status image,
        m_dataStream sample_waiting = frame name rate light status image)
  /\ exists cam' log,
       update sample_waiting = Done tt cam' log
       /\ written_sockets log = [1%nat; 2%nat]
       /\ forall id data, In (socket_write id data) log ->
            exists name rate light status image,
              data = frame name rate light status image.
Proof.
  split; [exact sample_waiting_reachable|]. split; [discriminate|].
  assert (Hfps : m_fps sample_waiting <> 0) by discriminate.
  destruct (update_writes_whole_frames sample_waiting
              sample_waiting_reachable Hfps)
    as ([Hnone|Hframe] & cam' & log & Hrun & Hwhole);
    [vm_compute in Hnone; discriminate Hnone|].
  split; [exact Hframe|].
  exists cam', log. split; [exact Hrun|]. split; [|exact Hwhole].
  assert (Hlog : update sample_waiting = Done tt cam' log) by exact Hrun.
  vm_compute in Hlog. inversion Hlog. reflexivity.
Defined.

(** X18: encoding a frame and broadcasting it, from an empty buffer, leaves
    the camera object exactly as it was, and every connected station has
    been written the frame of that object. *)
Theorem encode_broadcast_restores `{QCCTV_h} (cam : QCCTV_LocalCamera) :
  isEmpty (m_dataStream cam) = true ->
  (generateDataStream ;; sendCameraData) cam
  = Done tt cam
      (map (fun s =>
              socket_write (socket_id s)
                (frame (m_name cam) (m_fps cam) (m_flashlightStatus cam)
                   (m_cameraStatus cam) (m_image cam)))
         (m_sockets cam)).
Proof.
  intros Hempty.
  rewrite (bind_Done _ _ _ _ _ _ (generateDataStream_empty cam Hempty)).
  rewrite sendCameraData_result.
  cbn [m_dataStream m_sockets with_dataStream app].
  destruct cam as [? ? ? ? ? buf ? ? ? ? ?]. cbn in Hempty.
  destruct buf; [reflexivity|discriminate].
Qed.

Lemma encode_broadcast_restores_witness :
  isEmpty (m_dataStream (with_dataStream [] sample_streaming)) = true
  /\ (generateDataStream ;; sendCameraData)
       (with_dataStream [] sample_streaming)
     = Done tt (with_dataStream [] sample_streaming)
         [socket_write 1 (frame [67; 97; 109; 49] 15 0 0 default_image);
          socket_write 2 (frame [67; 97; 109; 49] 15 0 0 default_image)].
Proof.
  split; [reflexivity|].
  apply (encode_broadcast_restores (with_dataStream [] sample_streaming)).
  reflexivity.
Defined.

(** ** Commands and focus *)

Lemma focus_requests_app l1 l2 :
  (focus_requests (l1 ++ l2) = focus_requests l1 + focus_requests l2)%nat.
Proof.
  induction l1 as [|e rest IH]; [reflexivity|].
  destruct e; cbn [app focus_requests]; rewrite IH; reflexivity.
Qed.

(** X19: turning the light on focuses the camera by itself.  So a command
    packet read with a camera set sends one focus request to the device if
    its second byte switches a ready flashlight on, one more if its third
    byte is the focus flag, and none otherwise: the count does not depend
    on the focus flag alone. *)
Theorem command_focus_requests `{QCCTV_h} (socket : QTcpSocket)
    (b0 b1 b2 : byte) (cam : QCCTV_LocalCamera) (c : QCamera) :
  m_camera cam = Some c ->
  exists cam' log,
    readCommandPacket (Some socket) [b0; b1; b2] cam = Done tt cam' log
    /\ focus_requests log
       = Nat.add
           (if negb (m_flashlightStatus cam =? char_to_int b1)
               && isFlashReady c
               && (char_to_int b1 =? QCCTV_FLASHLIGHT_ON)
            then 1%nat else 0%nat)
           (if char_to_int b2 =? QCCTV_FORCE_FOCUS then 1%nat else 0%nat).
Proof.
  intros Hcam. unfold readCommandPacket.
  cbn [size length Z.of_nat Pos.of_succ_nat Pos.succ Z.eqb Pos.eqb negb
       at_ nth].
  set (n := char_to_int b0). set (l := char_to_int b1).
  set (f := char_to_int b2 =? QCCTV_FORCE_FOCUS).
  assert (E1 : exists cam1 log1,
             setFPS n cam = Done tt cam1 log1
             /\ m_camera cam1 = Some c
             /\ m_flashlightStatus cam1 = m_flashlightStatus cam
             /\ focus_requests log1 = 0%nat).
  { rewrite setFPS_result. destruct (m_fps cam =? QCCTV_GET_VALID_FPS n);
      eexists _, _; (split; [reflexivity|]); repeat split; assumption. }
  destruct E1 as (cam1 & log1 & E1 & Hcam1 & Hlight1 & Hf1).
  assert (E2 : exists cam2 log2,
             setFlashlightStatus l cam1 = Done tt cam2 log2
             /\ m_camera cam2 = Some c
             /\ focus_requests log2
                = if negb (m_flashlightStatus cam =? l) && isFlashReady c
                     && (l =? QCCTV_FLASHLIGHT_ON)
                  then 1%nat else 0%nat).
  { rewrite setFlashlightStatus_result, Hlight1, Hcam1.
    destruct (m_flashlightStatus cam =? l); cbn [negb andb];
      eexists _, _; (split; [reflexivity|]);
      (split; [assumption|]); [reflexivity|].
    destruct (isFlashReady c); cbn [andb]; [|reflexivity].
    unfold light_switch_log. destruct (l =? QCCTV_FLASHLIGHT_ON); reflexivity. }
  destruct E2 as (cam2 & log2 & E2 & Hcam2 & Hf2).
  assert (E3 : when f focusCamera cam2
               = Done tt cam2
                   (if f then [camera_searchAndLock (camera_id c);
                               emit focusStatusChanged]
                    else [])).
  { destruct f; cbn [when]; [|reflexivity].
    rewrite focusCamera_result, Hcam2. reflexivity. }
  exists cam2, (log1 ++ log2 ++ if f then [camera_searchAndLock (camera_id c);
                                           emit focusStatusChanged]
                                else []).
  split.
  - rewrite (bind_Done _ _ _ _ _ _ E1), (bind_Done _ _ _ _ _ _ E2), E3.
    reflexivity.
  - rewrite !focus_requests_app, Hf1, Hf2. destruct f; reflexivity.
Qed.

Lemma command_focus_requests_witness :
  m_camera sample_streaming = Some sample_device
  /\ exists cam' log,
       readCommandPacket (Some (sample_station 1)) [30; 1; 0] sample_streaming
       = Done tt cam' log
       /\ focus_requests log = 1%nat.
Proof.
  split; [reflexivity|].
  destruct (command_focus_requests (sample_station 1) 30 1 0
              sample_streaming sample_device eq_refl)
    as (cam' & log & Hrun & Hcount).
  exists cam', log. split; [exact Hrun|]. rewrite Hcount. reflexivity.
Defined.

(** ** The flashlight *)

(** X20: a light switched on while no camera is set never reaches the
    device: the status is stored at once, so when a camera is set
    afterwards nothing is sent to its flash, and asking for the light again
    finds the status already stored and does nothing.  The only device call
    of the three steps is the start of the camera. *)
Theorem light_before_camera_is_lost `{QCCTV_h} (c : QCamera)
    (cam : QCCTV_LocalCamera) :
  m_camera cam = None ->
  (turnOnFlashlight ;; setCamera (Some c) ;; turnOnFlashlight) cam
  = Done tt
      (with_camera (Some c) (Some (camera_id c))
         (with_flashlightStatus QCCTV_FLASHLIGHT_ON cam))
      [camera_start (camera_id c)].
Proof.
  intros Hnone. unfold turnOnFlashlight.
  assert (E1 : setFlashlightStatus QCCTV_FLASHLIGHT_ON cam
               = Done tt (with_flashlightStatus QCCTV_FLASHLIGHT_ON cam) []).
  { rewrite setFlashlightStatus_result, Hnone.
    destruct (Z.eqb_spec (m_flashlightStatus cam) QCCTV_FLASHLIGHT_ON)
      as [Heq|_]; [|reflexivity].
    rewrite <- Heq, with_flashlightStatus_same. reflexivity. }
  rewrite (bind_Done _ _ _ _ _ _ E1).
  assert (E2 : setCamera (Some c)
                 (with_flashlightStatus QCCTV_FLASHLIGHT_ON cam)
               = Done tt
                   (with_camera (Some c) (Some (camera_id c))
                      (with_flashlightStatus QCCTV_FLASHLIGHT_ON cam))
                   [camera_start (camera_id c)])
    by reflexivity.
  rewrite (bind_Done _ _ _ _ _ _ E2).
  rewrite setFlashlightStatus_result.
  cbn [m_flashlightStatus with_camera with_flashlightStatus].
  rewrite Z.eqb_refl. reflexivity.
Qed.

Lemma light_before_camera_is_lost_witness :
  m_camera sample_camera = None
  /\ (turnOnFlashlight ;; setCamera (Some sample_device) ;; turnOnFlashlight)
       sample_camera
     = Done tt
         (with_camera (Some sample_device) (Some 7%nat)
            (with_flashlightStatus 1 sample_camera))
         [camera_start 7].
Proof.
  split; [reflexivity|].
  apply (light_before_camera_is_lost sample_device sample_camera).
  reflexivity.
Defined.

(** X21: with a ready flashlight, switching the light on and off again
    brings the object back to where it was: the device is told to light,
    is focused, and is told to switch the flash off, and
    [lightStatusChanged] is signalled once for each switch. *)
Theorem light_on_off_roundtrip `{QCCTV_h} (c : QCamera)
    (cam : QCCTV_LocalCamera) :
  QCCTV_FLASHLIGHT_ON <> QCCTV_FLASHLIGHT_OFF ->
  m_camera cam = Some c ->
  isFlashReady c = true ->
  m_flashlightStatus cam = QCCTV_FLASHLIGHT_OFF ->
  (turnOnFlashlight ;; turnOffFlashlight) cam
  = Done tt cam
      [camera_setFlashMode (camera_id c) FlashVideoLight;
       camera_searchAndLock (camera_id c); emit focusStatusChanged;
       emit lightStatusChanged;
       camera_setFlashMode (camera_id c) FlashOff;
       emit lightStatusChanged].
Proof.
  intros Hdiff Hcam Hready Hoff. unfold turnOnFlashlight, turnOffFlashlight.
  assert (E1 : setFlashlightStatus QCCTV_FLASHLIGHT_ON cam
               = Done tt (with_flashlightStatus QCCTV_FLASHLIGHT_ON cam)
                   [camera_setFlashMode (camera_id c) FlashVideoLight;
                    camera_searchAndLock (camera_id c);
                    emit focusStatusChanged; emit lightStatusChanged]).
  { rewrite setFlashlightStatus_result, Hcam, Hready, Hoff.
    destruct (Z.eqb_spec QCCTV_FLASHLIGHT_OFF QCCTV_FLASHLIGHT_ON);
      [congruence|].
    unfold light_switch_log. rewrite Z.eqb_refl. reflexivity. }
  rewrite (bind_Done _ _ _ _ _ _ E1).
  rewrite setFlashlightStatus_result.
  cbn [m_flashlightStatus m_camera with_flashlightStatus].
  rewrite Hcam, Hready.
  destruct (Z.eqb_spec QCCTV_FLASHLIGHT_ON QCCTV_FLASHLIGHT_OFF);
    [contradiction|].
  unfold light_switch_log.
  destruct (Z.eqb_spec QCCTV_FLASHLIGHT_OFF QCCTV_FLASHLIGHT_ON);
    [congruence|].
  cbn [app]. f_equal. rewrite <- Hoff. destruct cam; reflexivity.
Qed.

Lemma light_on_off_roundtrip_witness :
  @QCCTV_FLASHLIGHT_ON sample_header <> @QCCTV_FLASHLIGHT_OFF sample_header
  /\ m_camera sample_streaming = Some sample_device
  /\ isFlashReady sample_device = true
  /\ m_flashlightStatus sample_streaming = QCCTV_FLASHLIGHT_OFF
  /\ exists log,
       (turnOnFlashlight ;; turnOffFlashlight) sample_streaming
       = Done tt sample_streaming log
       /\ focus_requests log = 1%nat.
Proof.
  split; [discriminate|]. do 3 (split; [reflexivity|]).
  eexists. split.
  - apply (light_on_off_roundtrip sample_device sample_streaming);
      [discriminate|reflexivity|reflexivity|reflexivity].
  - reflexivity.
Defined.

(** X22: the light status is not confined to "on" and "off": any other
    value a caller or a command byte asks for is stored as it is, the
    device (when its flash is ready) is told to switch the flash off, and
    afterwards neither [flashlightOn()] nor [flashlightOff()] holds. *)
Theorem light_status_neither_on_nor_off `{QCCTV_h} (status : Z)
    (cam : QCCTV_LocalCamera) :
  status <> QCCTV_FLASHLIGHT_ON ->
  status <> QCCTV_FLASHLIGHT_OFF ->
  exists cam' log,
    setFlashlightStatus status cam = Done tt cam' log
    /\ lightStatus cam' = Done status cam' []
    /\ flashlightOn cam' = Done false cam' []
    /\ flashlightOff cam' = Done false cam' []
    /\ (forall c, m_camera cam = Some c -> isFlashReady c = true ->
        m_flashlightStatus cam <> status ->
        log = [camera_setFlashMode (camera_id c) FlashOff;
               emit lightStatusChanged]).
Proof.
  intros Hon Hoff.
  assert (E : exists cam' log,
            setFlashlightStatus status cam = Done tt cam' log
            /\ m_flashlightStatus cam' = status
            /\ (forall c, m_camera cam = Some c -> isFlashReady c = true ->
                m_flashlightStatus cam <> status ->
                log = [camera_setFlashMode (camera_id c) FlashOff;
                       emit lightStatusChanged])).
  { rewrite setFlashlightStatus_result.
    destruct (Z.eqb_spec (m_flashlightStatus cam) status) as [Heq|Hne];
      eexists _, _; (split; [reflexivity|]).
    - split; [exact Heq|]. intros; contradiction.
    - split; [reflexivity|]. intros c Hcam Hready _.
      rewrite Hcam, Hready. unfold light_switch_log.
      destruct (Z.eqb_spec status QCCTV_FLASHLIGHT_ON);
        [contradiction|reflexivity]. }
  destruct E as (cam' & log & E & Hstored & Hlog).
  exists cam', log. split; [exact E|].
  unfold flashlightOn, flashlightOff, lightStatus, bind, gets, ret.
  rewrite Hstored.
  destruct (Z.eqb_spec status QCCTV_FLASHLIGHT_ON); [contradiction|].
  destruct (Z.eqb_spec status QCCTV_FLASHLIGHT_OFF); [contradiction|].
  repeat (split; [reflexivity|]). exact Hlog.
Qed.

Lemma light_status_neither_on_nor_off_witness :
  7 <> @QCCTV_FLASHLIGHT_ON sample_header
  /\ 7 <> @QCCTV_FLASHLIGHT_OFF sample_header
  /\ exists cam',
       setFlashlightStatus 7 sample_streaming
       = Done tt cam' [camera_setFlashMode 7 FlashOff; emit lightStatusChanged]
       /\ flashlightOn cam' = Done false cam' []
       /\ flashlightOff cam' = Done false cam' [].
Proof.
  split; [discriminate|]. split; [discriminate|].
  destruct (light_status_neither_on_nor_off 7 sample_streaming)
    as (cam' & log & Hrun & _ & Hon & Hoff & Hlog);
    [discriminate|discriminate|].
  exists cam'. rewrite Hrun.
  rewrite (Hlog sample_device eq_refl eq_refl) by discriminate.
  split; [reflexivity|]. split; [exact Hon|exact Hoff].
Defined.

(** ** Images and hosts *)



(** X24: [connectedHosts] lists the peer address of every connected
    station, in connection order, with one entry for each socket; after
    [acceptConnection] the addresses of all stations that were pending
    follow the ones already listed. *)
Theorem connectedHosts_after_accept `{QCCTV_h} (cam : QCCTV_LocalCamera) :
  exists cam' log hosts,
    (acceptConnection ;; connectedHosts) cam = Done hosts cam' log
    /\ hosts
       = map peerAddress (m_sockets cam)
         ++ map peerAddress (pendingConnections (m_server cam))
    /\ length hosts = length (m_sockets cam')
    /\ connectedHosts cam' = Done hosts cam' [].
Proof.
  eexists _, _, _. split.
  { rewrite (bind_Done _ _ _ _ _ _ (acceptConnection_result cam)).
    unfold connectedHosts, bind, gets, ret. reflexivity. }
  cbn [m_sockets with_sockets with_server].
  split; [apply map_app|].
  split; [apply length_map|].
  unfold connectedHosts, bind, gets, ret.
  cbn [m_sockets with_sockets with_server app]. reflexivity.
Qed.

(** ** The scheduler tick, step by step *)

Lemma probe_result `{QCCTV_h} (failed : bool) f cam :
  (if failed then addStatusFlag f else removeStatusFlag f) cam
  = Done tt (with_cameraStatus (probe_status failed f (m_cameraStatus cam)) cam)
      (probe_signal failed f (m_cameraStatus cam)).
Proof.
  unfold probe_status, probe_signal.
  destruct failed;
    [rewrite addStatusFlag_result|rewrite removeStatusFlag_result];
    destruct (Z.land (m_cameraStatus cam) f =? 0); cbn [Bool.eqb];
    rewrite ?with_cameraStatus_same; reflexivity.
Qed.

Lemma updateStatus_result `{QCCTV_h} cam :
  updateStatus cam
  = Done tt (with_cameraStatus (refreshed_status cam) cam)
      (probe_signal (video_failed cam) QCCTV_CAMSTATUS_VIDEO_FAILURE
         (m_cameraStatus cam)
       ++ probe_signal (light_failed cam) QCCTV_CAMSTATUS_LIGHT_FAILURE
            (probe_status (video_failed cam) QCCTV_CAMSTATUS_VIDEO_FAILURE
               (m_cameraStatus cam))).
Proof.
  rewrite updateStatus_as_flags. fold (video_failed cam) (light_failed cam).
  rewrite (bind_Done _ _ _ _ _ _ (probe_result (video_failed cam) _ cam)).
  rewrite probe_result. reflexivity.
Qed.

Lemma probe_status_bits (failed : bool) k s :
  0 <= k ->
  Z.testbit (probe_status failed (2 ^ k) s) k = failed
  /\ forall n, n <> k ->
       Z.testbit (probe_status failed (2 ^ k) s) n = Z.testbit s n.
Proof.
  intros Hk.
  assert (Hself : Z.testbit (2 ^ k) k = true)
    by (rewrite Z.pow2_bits_eqb by exact Hk; apply Z.eqb_refl).
  assert (Hother : forall n, n <> k -> Z.testbit (2 ^ k) n = false).
  { intros n Hn. rewrite Z.pow2_bits_eqb by exact Hk.
    apply Z.eqb_neq. congruence. }
  unfold probe_status.
  destruct failed; destruct (Z.eqb_spec (Z.land s (2 ^ k)) 0) as [Hz|Hnz].
  - split; [rewrite Z.lor_spec, Hself; apply orb_true_r|].
    intros n Hn. rewrite Z.lor_spec, (Hother n Hn). apply orb_false_r.
  - split; [apply land_pow2_testbit; assumption|reflexivity].
  - split; [apply (land_zero_bits _ _ _ Hz Hself)|reflexivity].
  - split.
    + rewrite Z.lxor_spec, Hself, (land_pow2_testbit _ _ Hk Hnz). reflexivity.
    + intros n Hn. rewrite Z.lxor_spec, (Hother n Hn). apply xorb_false_r.
Qed.

(** C8: a tick of the scheduler first refreshes the status flags from the
    two probes (video first, light second, signalling each change), then
    encodes a frame of the object with the refreshed flags unless a frame
    is still waiting, then writes the buffer to every station and empties
    it, and arms the timer only after these three, as the last effect of
    the tick; the period is 1000 divided by the frame rate stored at that
    moment.  Setting the frame rate arms no timer, so a new rate shows in
    the period armed by the next tick. *)
Theorem update_tick `{QCCTV_h} (cam : QCCTV_LocalCamera) :
  m_fps cam <> 0 ->
  exists cam1 log1 cam2 cam3 log3,
    updateStatus cam = Done tt cam1 log1
    /\ generateDataStream cam1 = Done tt cam2 []
    /\ sendCameraData cam2 = Done tt cam3 log3
    /\ log3 = map (fun s => socket_write (socket_id s) (m_dataStream cam2))
                (m_sockets cam2)
    /\ update cam
       = Done tt cam3
           (log1 ++ log3
            ++ [singleShot (Z.quot 1000 (m_fps cam3)) PreciseTimer slot_update])
    /\ m_fps cam3 = m_fps cam
    /\ (forall e, In e (log1 ++ log3) -> is_singleShot e = false)
    /\ (forall n c c' l e,
          setFPS n c = Done tt c' l -> In e l -> is_singleShot e = false)
    /\ (0 < m_fps cam -> Z.quot 1000 (m_fps cam3) = 1000 / m_fps cam)
    (* step 1: the refresh *)
    /\ cam1 = with_cameraStatus (refreshed_status cam) cam
    /\ log1
       = probe_signal (video_failed cam) QCCTV_CAMSTATUS_VIDEO_FAILURE
           (m_cameraStatus cam)
         ++ probe_signal (light_failed cam) QCCTV_CAMSTATUS_LIGHT_FAILURE
              (probe_status (video_failed cam) QCCTV_CAMSTATUS_VIDEO_FAILURE
                 (m_cameraStatus cam))
    /\ (forall kv kl, 0 <= kv -> 0 <= kl -> kv <> kl ->
        QCCTV_CAMSTATUS_VIDEO_FAILURE = 2 ^ kv ->
        QCCTV_CAMSTATUS_LIGHT_FAILURE = 2 ^ kl ->
        Z.testbit (m_cameraStatus cam1) kv = video_failed cam
        /\ Z.testbit (m_cameraStatus cam1) kl = light_failed cam)
    (* step 2: the encoding, under backpressure *)
    /\ cam2 = with_dataStream (m_dataStream cam2) cam1
    /\ m_dataStream cam2
       = (if isEmpty (m_dataStream cam)
          then frame (m_name cam) (m_fps cam) (m_flashlightStatus cam)
                 (refreshed_status cam) (m_image cam)
          else m_dataStream cam)
    (* step 3: the broadcast *)
    /\ m_sockets cam2 = m_sockets cam
    /\ cam3 = with_dataStream [] cam1.
Proof.
  intros Hfps.
  set (cam1 := with_cameraStatus (refreshed_status cam) cam).
  pose proof (updateStatus_result cam) as E1. fold cam1 in E1.
  set (data := if isEmpty (m_dataStream cam)
               then frame (m_name cam) (m_fps cam) (m_flashlightStatus cam)
                      (refreshed_status cam) (m_image cam)
               else m_dataStream cam).
  assert (E2 : generateDataStream cam1 = Done tt (with_dataStream data cam1) []).
  { subst data. destruct (isEmpty (m_dataStream cam)) eqn:Hempty.
    - apply (generateDataStream_empty cam1). exact Hempty.
    - rewrite (generateDataStream_pending cam1) by exact Hempty.
      reflexivity. }
  pose proof (sendCameraData_result (with_dataStream data cam1)) as E3.
  eexists cam1, _, (with_dataStream data cam1),
    (with_dataStream [] cam1), _.
  split; [exact E1|]. split; [exact E2|]. split; [exact E3|].
  split; [reflexivity|].
  split.
  { unfold update.
    rewrite (bind_Done _ _ _ _ _ _ E1).
    rewrite (bind_Done _ _ _ _ _ _ E2).
    rewrite (bind_Done _ _ _ _ _ _ E3).
    unfold fps, bind, gets, tell. cbn [m_fps with_dataStream cam1
                                        with_cameraStatus].
    destruct (Z.eqb_spec (m_fps cam) 0); [contradiction|].
    cbn [app]. reflexivity. }
  split; [reflexivity|].
  split.
  { intros e He. apply in_app_or in He. destruct He as [He|He].
    - apply in_app_or in He. unfold probe_signal in He.
      destruct He as [He|He];
        match type of He with
        | In _ (if ?b then _ else _) => destruct b
        end; cbn [In] in He;
        try contradiction;
        (destruct He as [<-|He]; [reflexivity|contradiction]).
    - apply in_map_iff in He. destruct He as (s & <- & _). reflexivity. }
  split; [intros n c c' l e; apply setFPS_no_timer|].
  split; [intros Hpos; apply Z.quot_div_nonneg; cbn [m_fps with_dataStream
            cam1 with_cameraStatus]; lia|].
  split; [reflexivity|]. split; [reflexivity|].
  split.
  { intros kv kl Hkv Hkl Hdiff Hvideo Hlight.
    cbn [m_cameraStatus cam1 with_cameraStatus]. unfold refreshed_status.
    rewrite Hvideo, Hlight.
    destruct (probe_status_bits (light_failed cam) kl
                (probe_status (video_failed cam) (2 ^ kv) (m_cameraStatus cam))
                Hkl) as [Hl Hrest].
    split; [|exact Hl].
    rewrite (Hrest kv Hdiff).
    apply (probe_status_bits (video_failed cam) kv _ Hkv). }
  split; [reflexivity|]. split; [reflexivity|].
  split; reflexivity.
Qed.

Lemma update_tick_witness :
  m_fps sample_unplugged <> 0
  /\ update sample_unplugged
     = Done tt
         (with_dataStream [] (with_cameraStatus 24 sample_unplugged))
         [emit cameraStatusChanged; emit cameraStatusChanged;
          socket_write 1 (frame [67; 97; 109; 49] 15 0 24 default_image);
          socket_write 2 (frame [67; 97; 109; 49] 15 0 24 default_image);
          singleShot 66 PreciseTimer slot_update].
Proof.
  split; [discriminate|].
  destruct (update_tick sample_unplugged)
    as (c1 & l1 & c2 & c3 & l3 & _ & _ & _ & Hl3 & Hrun & _ & _ & _ & _
        & Hc1 & Hl1 & _ & _ & Hdata & Hsocks & Hc3).
  - discriminate.
  - rewrite Hrun, Hc3, Hl3, Hdata, Hsocks, Hl1, Hc1. reflexivity.
Defined.
